(** * The Figma plugin bridge (figma-mcp, plugin-bridge.ts)

    A shallow embedding of [PluginBridge]: the newline-framed command
    channel to the plugin child process, the id generator, the map of
    response callbacks and the carry buffer of partial reads.

    JavaScript strings are sequences of UTF-16 code units; a code unit is a
    number in [N].  The promises handed to callers and the console are part
    of the modelled state, so that "the caller's promise is settled" and
    "the reply is only logged" are statements about that state. *)

From Stdlib Require Import ZArith NArith List Lia Bool Permutation.
From Stdlib Require Import Strings.String Strings.Ascii.
From Stdlib Require Import Numbers.DecimalZ Numbers.DecimalPos Numbers.DecimalN.
From stdpp Require Import base option list gmap.

Set Warnings "-register-all".

Local Open Scope N_scope.
Local Open Scope list_scope.

(** ** Strings *)

Abbreviation jsstring := (list N).

(** A string literal of the source, as code units. *)
Definition js (s : string) : jsstring :=
  List.map N_of_ascii (list_ascii_of_string s).

Definition LF : N := 10.

(** [String.prototype.split] with a one-code-unit separator: the result is
    never empty, and a string without separator is returned whole. *)
Fixpoint split (sep : N) (s : jsstring) : list jsstring :=
  match s with
  | [] => [[]]
  | c :: r =>
      if N.eqb c sep then [] :: split sep r
      else match split sep r with
           | [] => [[c]]
           | seg :: segs => (c :: seg) :: segs
           end
  end.

(** [Array.prototype.pop]: the last element ([None] for [undefined] on an
    empty array) and the array without it. *)
Definition pop {A : Type} (l : list A) : option A * list A :=
  (last l, removelast l).

(** [x || ''] on the result of [pop]: [undefined] and the empty string are
    both falsy. *)
Definition or_empty (o : option jsstring) : jsstring :=
  match o with
  | Some (c :: s) => c :: s
  | _ => []
  end.

(** WhiteSpace and LineTerminator code units, the ones [trim] strips. *)
Definition white_space : list N :=
  [ 9; 10; 11; 12; 13; 32; 160; 5760;
    8192; 8193; 8194; 8195; 8196; 8197; 8198; 8199; 8200; 8201; 8202;
    8232; 8233; 8239; 8287; 12288; 65279 ].

Definition is_white_space (c : N) : bool := existsb (N.eqb c) white_space.

Fixpoint trimStart (s : jsstring) : jsstring :=
  match s with
  | [] => []
  | c :: r => if is_white_space c then trimStart r else c :: r
  end.

Definition trimEnd (s : jsstring) : jsstring := rev (trimStart (rev s)).

Definition trim (s : jsstring) : jsstring := trimEnd (trimStart s).

(** ToBoolean of a string. *)
Definition truthy_string (s : jsstring) : bool :=
  match s with [] => false | _ => true end.

(** ** Numbers that hold integers

    [messageId] and [Date.now()] are JavaScript numbers (binary64) holding
    integers.  Below 2^53 adding one is exact; 2^53 + 1 is not
    representable and rounds (ties to even) back to 2^53, so [x++] leaves
    2^53 where it is. *)

Definition MAX_EXACT : Z := (2 ^ 53)%Z.

Definition increment (x : Z) : Z :=
  if (x <? MAX_EXACT)%Z then (x + 1)%Z else x.

Fixpoint uint_units (u : Decimal.uint) : jsstring :=
  match u with
  | Decimal.Nil => []
  | Decimal.D0 u => 48 :: uint_units u
  | Decimal.D1 u => 49 :: uint_units u
  | Decimal.D2 u => 50 :: uint_units u
  | Decimal.D3 u => 51 :: uint_units u
  | Decimal.D4 u => 52 :: uint_units u
  | Decimal.D5 u => 53 :: uint_units u
  | Decimal.D6 u => 54 :: uint_units u
  | Decimal.D7 u => 55 :: uint_units u
  | Decimal.D8 u => 56 :: uint_units u
  | Decimal.D9 u => 57 :: uint_units u
  end.

(** Number::toString on an integer below 10^21: its decimal digits, with a
    minus sign when negative. *)
Definition integer_toString (z : Z) : jsstring :=
  match Z.to_int z with
  | Decimal.Pos u => uint_units u
  | Decimal.Neg u => 45 :: uint_units u
  end.

(** ** Values *)

(** A number of the wire format: a binary64 value, given by its sign, its
    integer significand and its binary exponent. *)
Inductive Number : Type :=
  | NaN
  | Infinity (negative : bool)
  | Finite (negative : bool) (significand : N) (exponent : Z).

Definition Number_isFinite (n : Number) : bool :=
  match n with Finite _ _ _ => true | _ => false end.

(** ToBoolean of a number: zero and NaN are falsy. *)
Definition truthy_number (n : Number) : bool :=
  match n with
  | NaN => false
  | Infinity _ => true
  | Finite _ m _ => negb (N.eqb m 0)
  end.

(** What [JSON.parse] can return. *)
Inductive Json : Type :=
  | JNull
  | JBool (b : bool)
  | JNumber (n : Number)
  | JString (s : jsstring)
  | JArray (elems : list Json)
  | JObject (props : list (jsstring * Json)).

(** What a caller can pass as a payload (the type is [any]).  [VCircular]
    stands for a reference to an object that is already being visited. *)
Inductive JsValue : Type :=
  | VUndefined
  | VNull
  | VBoolean (b : bool)
  | VNumber (n : Number)
  | VBigInt (z : Z)
  | VString (s : jsstring)
  | VSymbol
  | VFunction
  | VArray (elems : list JsValue)
  | VObject (props : list (jsstring * JsValue))
  | VCircular.

Inductive JsError : Type :=
  | Error (message : jsstring)
  | ErrorOf (message : Json)
  | TypeError (message : jsstring)
  | SyntaxError (message : jsstring).

(** The outcome of evaluating something that may throw. *)
Inductive Completion (A : Type) : Type :=
  | Normal (a : A)
  | Throw (e : JsError).
Arguments Normal {A} a.
Arguments Throw {A} e.

(** ToBoolean of a property read from a parsed value ([None] is
    [undefined]). *)
Definition truthy (v : option Json) : bool :=
  match v with
  | None => false
  | Some JNull => false
  | Some (JBool b) => b
  | Some (JNumber n) => truthy_number n
  | Some (JString s) => truthy_string s
  | Some (JArray _) | Some (JObject _) => true
  end.

Fixpoint assoc {A : Type} (k : jsstring) (props : list (jsstring * A)) : option A :=
  match props with
  | [] => None
  | (k', v) :: rest => if decide (k' = k) then Some v else assoc k rest
  end.

(** Reading one of the properties [id], [success], [data], [error] of a
    parsed value: [null] has no properties and the access throws; numbers,
    booleans, strings and arrays have none of these four. *)
Definition Get (v : Json) (k : jsstring) : Completion (option Json) :=
  match v with
  | JNull => Throw (TypeError (js "Cannot read properties of null"))
  | JObject props => Normal (assoc k props)
  | _ => Normal None
  end.

(** ** Commands and replies *)

Inductive CommandType : Type :=
  | CREATE_WIREFRAME | ADD_ELEMENT | STYLE_ELEMENT | MODIFY_ELEMENT
  | ARRANGE_LAYOUT | EXPORT_DESIGN | GET_SELECTION | GET_CURRENT_PAGE.

Definition type_name (t : CommandType) : jsstring :=
  match t with
  | CREATE_WIREFRAME => js "CREATE_WIREFRAME"
  | ADD_ELEMENT => js "ADD_ELEMENT"
  | STYLE_ELEMENT => js "STYLE_ELEMENT"
  | MODIFY_ELEMENT => js "MODIFY_ELEMENT"
  | ARRANGE_LAYOUT => js "ARRANGE_LAYOUT"
  | EXPORT_DESIGN => js "EXPORT_DESIGN"
  | GET_SELECTION => js "GET_SELECTION"
  | GET_CURRENT_PAGE => js "GET_CURRENT_PAGE"
  end.

(** [payload] is [VUndefined] when the command has none. *)
Record PluginCommand : Type := {
  type : CommandType;
  payload : JsValue
}.

(** [{ ...command, id }] *)
Definition message_of (command : PluginCommand) (id : jsstring) : JsValue :=
  VObject [ (js "type", VString (type_name (type command)));
            (js "payload", payload command);
            (js "id", VString id) ].

(** ** The bridge and its surroundings *)

(** The child process as the bridge sees it: its [stdin] stream ([None]
    when the property is null), holding what has been written to it. *)
Record ChildProcess : Type := {
  stdin : option (list jsstring);
  killed : bool
}.

Definition PromiseId := nat.

Inductive PromiseState : Type :=
  | Pending
  | Fulfilled (value : option Json)
  | Rejected (reason : JsError).

Inductive LogEntry : Type :=
  | LogStarting
  | LogStarted
  | LogInitFailed (e : JsError)
  | LogStderr (data : jsstring)
  | LogExit (code : option Z)
  | LogNoCallback (response : Json)
  | LogParseError (e : JsError) (line : jsstring).

(** The four fields of [PluginBridge], then the promises created by
    [sendCommand] (a callback stored in [responseCallbacks] is the closure
    over the [resolve] and [reject] of one promise, so it is kept as that
    promise's index) and the console. *)
Record Bridge : Type := {
  pluginProcess : option ChildProcess;
  responseCallbacks : gmap jsstring PromiseId;
  messageBuffer : jsstring;
  messageId : Z;
  promises : list PromiseState;
  console : list LogEntry
}.

(** [new PluginBridge()] *)
Definition new_bridge : Bridge :=
  {| pluginProcess := None;
     responseCallbacks := ∅;
     messageBuffer := [];
     messageId := 0;
     promises := [];
     console := [] |}.

Definition set_pluginProcess (o : option ChildProcess) (b : Bridge) : Bridge :=
  {| pluginProcess := o;
     responseCallbacks := responseCallbacks b;
     messageBuffer := messageBuffer b;
     messageId := messageId b;
     promises := promises b;
     console := console b |}.

Definition set_responseCallbacks (m : gmap jsstring PromiseId) (b : Bridge) : Bridge :=
  {| pluginProcess := pluginProcess b;
     responseCallbacks := m;
     messageBuffer := messageBuffer b;
     messageId := messageId b;
     promises := promises b;
     console := console b |}.

Definition set_messageBuffer (s : jsstring) (b : Bridge) : Bridge :=
  {| pluginProcess := pluginProcess b;
     responseCallbacks := responseCallbacks b;
     messageBuffer := s;
     messageId := messageId b;
     promises := promises b;
     console := console b |}.

Definition set_messageId (z : Z) (b : Bridge) : Bridge :=
  {| pluginProcess := pluginProcess b;
     responseCallbacks := responseCallbacks b;
     messageBuffer := messageBuffer b;
     messageId := z;
     promises := promises b;
     console := console b |}.

Definition set_promises (ps : list PromiseState) (b : Bridge) : Bridge :=
  {| pluginProcess := pluginProcess b;
     responseCallbacks := responseCallbacks b;
     messageBuffer := messageBuffer b;
     messageId := messageId b;
     promises := ps;
     console := console b |}.

Definition set_console (c : list LogEntry) (b : Bridge) : Bridge :=
  {| pluginProcess := pluginProcess b;
     responseCallbacks := responseCallbacks b;
     messageBuffer := messageBuffer b;
     messageId := messageId b;
     promises := promises b;
     console := c |}.

(** ** Computations: state that survives a throw *)

Definition M (A : Type) : Type := Bridge -> Completion A * Bridge.

Definition ret {A : Type} (a : A) : M A := fun b => (Normal a, b).

Definition throw {A : Type} (e : JsError) : M A := fun b => (Throw e, b).

Definition bind {A B : Type} (m : M A) (k : A -> M B) : M B :=
  fun b =>
    match m b with
    | (Normal a, b') => k a b'
    | (Throw e, b') => (Throw e, b')
    end.

(** [try { m } catch (e) { handler e }] *)
Definition try_catch {A : Type} (m : M A) (handler : JsError -> M A) : M A :=
  fun b =>
    match m b with
    | (Normal a, b') => (Normal a, b')
    | (Throw e, b') => handler e b'
    end.

Definition lift {A : Type} (c : Completion A) : M A := fun b => (c, b).

Definition gets {A : Type} (f : Bridge -> A) : M A := fun b => (Normal (f b), b).

Definition modify (f : Bridge -> Bridge) : M unit := fun b => (Normal tt, f b).

Declare Scope js_scope.
Delimit Scope js_scope with js.
Notation "x <- m ;; k" := (bind m (fun x => k))
  (at level 100, m at next level, k at level 200, right associativity) : js_scope.
Notation "m ;; k" := (bind m (fun _ => k))
  (at level 100, k at level 200, right associativity) : js_scope.

(** [for (const x of xs) body x] *)
Fixpoint for_of {A : Type} (xs : list A) (body : A -> M unit) : M unit :=
  match xs with
  | [] => ret tt
  | x :: rest => bind (body x) (fun _ => for_of rest body)
  end.

(** [console.log] and [console.error] *)
Definition log (e : LogEntry) : M unit :=
  modify (fun b => set_console (console b ++ [e]) b).

(** Settling a promise: only a pending promise changes state; [resolve]
    and [reject] on a settled promise do nothing. *)
Definition settle (p : PromiseId) (s : PromiseState) (b : Bridge) : Bridge :=
  match promises b !! p with
  | Some Pending => set_promises (<[p := s]> (promises b)) b
  | _ => b
  end.

Definition resolve (p : PromiseId) (v : option Json) : M unit :=
  modify (settle p (Fulfilled v)).

Definition reject (p : PromiseId) (e : JsError) : M unit :=
  modify (settle p (Rejected e)).

(** [new Promise(...)]: the index of the promise created. *)
Definition new_promise : M PromiseId :=
  fun b => (Normal (length (promises b)),
            set_promises (promises b ++ [Pending]) b).

(** ** JSON text *)

Definition hex_digit (n : N) : N := if n <? 10 then 48 + n else 87 + n.

(** UnicodeEscape: a backslash, [u] and four lower-case hex digits. *)
Definition unicode_escape (c : N) : jsstring :=
  [ 92; 117;
    hex_digit ((c / 4096) mod 16); hex_digit ((c / 256) mod 16);
    hex_digit ((c / 16) mod 16); hex_digit (c mod 16) ].

Definition is_high_surrogate (c : N) : bool := (55296 <=? c) && (c <=? 56319).
Definition is_low_surrogate (c : N) : bool := (56320 <=? c) && (c <=? 57343).

(** One code unit inside a quoted string: the two-character escapes, the
    [\uXXXX] form for the other control characters and for surrogates that
    are not part of a pair, the code unit itself otherwise. *)
Definition escape_unit (c : N) : jsstring :=
  if c =? 8 then [92; 98]
  else if c =? 9 then [92; 116]
  else if c =? 10 then [92; 110]
  else if c =? 12 then [92; 102]
  else if c =? 13 then [92; 114]
  else if c =? 34 then [92; 34]
  else if c =? 92 then [92; 92]
  else if (c <? 32) || is_high_surrogate c || is_low_surrogate c
       then unicode_escape c
  else [c].

Fixpoint quote_units (s : jsstring) : jsstring :=
  match s with
  | [] => []
  | c :: r =>
      match r with
      | d :: r' =>
          if is_high_surrogate c && is_low_surrogate d
          then c :: d :: quote_units r'
          else escape_unit c ++ quote_units r
      | [] => escape_unit c
      end
  end.

(** QuoteJSONString *)
Definition QuoteJSONString (s : jsstring) : jsstring :=
  34 :: quote_units s ++ [34].

(** The elements of an array or the members of an object, joined by
    commas. *)
Fixpoint join_comma (parts : list jsstring) : jsstring :=
  match parts with
  | [] => []
  | [p] => p
  | p :: rest => p ++ 44 :: join_comma rest
  end.

(** A reader for a fragment of JSON, used to run the bridge on concrete
    replies: a string without escapes, [true], [false], [null], or an object
    whose members are such values, without white space.  On this fragment it
    agrees with [JSON.parse]; everything else it refuses. *)
Fixpoint read_string (s : jsstring) : option (jsstring * jsstring) :=
  match s with
  | [] => None
  | c :: r =>
      if c =? 34 then Some ([], r)
      else if (c =? 92) || (c <? 32) then None
      else match read_string r with
           | Some (t, r') => Some (c :: t, r')
           | None => None
           end
  end.

Fixpoint strip_prefix (p s : jsstring) : option jsstring :=
  match p, s with
  | [], _ => Some s
  | a :: p', c :: s' => if a =? c then strip_prefix p' s' else None
  | _ :: _, [] => None
  end.

Definition read_value (s : jsstring) : option (Json * jsstring) :=
  match s with
  | 34 :: r =>
      match read_string r with
      | Some (t, r') => Some (JString t, r')
      | None => None
      end
  | _ =>
      match strip_prefix (js "true") s with
      | Some r => Some (JBool true, r)
      | None =>
          match strip_prefix (js "false") s with
          | Some r => Some (JBool false, r)
          | None =>
              match strip_prefix (js "null") s with
              | Some r => Some (JNull, r)
              | None => None
              end
          end
      end
  end.

Fixpoint read_members (fuel : nat) (s : jsstring)
  : option (list (jsstring * Json) * jsstring) :=
  match fuel with
  | O => None
  | S fuel' =>
      match s with
      | 34 :: r =>
          match read_string r with
          | Some (k, 58 :: r1) =>
              match read_value r1 with
              | Some (v, 44 :: r2) =>
                  match read_members fuel' r2 with
                  | Some (ms, r3) => Some ((k, v) :: ms, r3)
                  | None => None
                  end
              | Some (v, 125 :: r2) => Some ([(k, v)], r2)
              | _ => None
              end
          | _ => None
          end
      | _ => None
      end
  end.

(** A later member with the same key wins, so the members are kept last
    first. *)
Definition parse_fragment (s : jsstring) : Completion Json :=
  match s with
  | [123; 125] => Normal (JObject [])
  | 123 :: r =>
      match read_members (length r) r with
      | Some (ms, []) => Normal (JObject (rev ms))
      | _ => Throw (SyntaxError (js "Unexpected token"))
      end
  | _ =>
      match read_value s with
      | Some (v, []) => Normal v
      | _ => Throw (SyntaxError (js "Unexpected token"))
      end
  end.

(** A rendering of numbers for concrete runs: decimal digits, exact for the
    integers [m * 2^e] with [e] not negative (the concrete runs below send
    no other number). *)
Definition toString_integral (n : Number) : jsstring :=
  match n with
  | NaN => js "NaN"
  | Infinity false => js "Infinity"
  | Infinity true => js "-Infinity"
  | Finite neg m e =>
      integer_toString
        ((if neg then -1 else 1) * Z.of_N m * 2 ^ Z.max e 0)%Z
  end.

(** ** The bridge *)

Local Open Scope js_scope.

(** What [initialize] finds when it runs: no Figma CLI, no plugin
    directory, or the child process that [spawn] returns. *)
Inductive SpawnResult : Type :=
  | CliMissing
  | PluginDirMissing (pluginPath : jsstring)
  | Spawned (proc : ChildProcess).

(** What happens to the bridge, one event-loop turn at a time. *)
Inductive Event : Type :=
  | Call (env : SpawnResult) (now : Z) (command : PluginCommand)
  | Stdout (data : jsstring)
  | Stderr (data : jsstring)
  | Exit (code : option Z)
  | Shutdown.

(** Closed decidable goals, by evaluation. *)
Ltac evaluate := apply (bool_decide_unpack _); vm_compute; exact I.

Section PluginBridge.

(** [JSON.parse] and Number::toString belong to the runtime. *)
Variable JSON_parse : jsstring -> Completion Json.
Variable Number_toString : Number -> jsstring.

(** SerializeJSONProperty without indentation: [Normal None] is
    [undefined] (the value is left out of an object and written as [null]
    in an array); a BigInt and a circular structure throw. *)
Fixpoint SerializeJSONProperty (v : JsValue) : Completion (option jsstring) :=
  match v with
  | VUndefined | VSymbol | VFunction => Normal None
  | VNull => Normal (Some (js "null"))
  | VBoolean true => Normal (Some (js "true"))
  | VBoolean false => Normal (Some (js "false"))
  | VNumber n =>
      if Number_isFinite n then Normal (Some (Number_toString n))
      else Normal (Some (js "null"))
  | VBigInt _ => Throw (TypeError (js "Do not know how to serialize a BigInt"))
  | VString s => Normal (Some (QuoteJSONString s))
  | VCircular => Throw (TypeError (js "Converting circular structure to JSON"))
  | VArray elems =>
      let fix go (l : list JsValue) : Completion (list jsstring) :=
        match l with
        | [] => Normal []
        | x :: rest =>
            match SerializeJSONProperty x with
            | Throw e => Throw e
            | Normal o =>
                match go rest with
                | Throw e => Throw e
                | Normal parts =>
                    Normal (match o with Some t => t | None => js "null" end
                            :: parts)
                end
            end
        end in
      match go elems with
      | Throw e => Throw e
      | Normal parts => Normal (Some (91 :: join_comma parts ++ [93]))
      end
  | VObject props =>
      let fix go (l : list (jsstring * JsValue)) : Completion (list jsstring) :=
        match l with
        | [] => Normal []
        | (k, x) :: rest =>
            match SerializeJSONProperty x with
            | Throw e => Throw e
            | Normal o =>
                match go rest with
                | Throw e => Throw e
                | Normal parts =>
                    Normal (match o with
                            | Some t => (QuoteJSONString k ++ 58 :: t) :: parts
                            | None => parts
                            end)
                end
            end
        end in
      match go props with
      | Throw e => Throw e
      | Normal parts => Normal (Some (123 :: join_comma parts ++ [125]))
      end
  end.

Definition JSON_stringify (v : JsValue) : Completion (option jsstring) :=
  SerializeJSONProperty v.

(** [x + '\n'] where [x] is what [JSON.stringify] returned. *)
Definition plus_newline (o : option jsstring) : jsstring :=
  match o with
  | Some s => s ++ [LF]
  | None => js "undefined" ++ [LF]
  end.

(** [`cmd_${Date.now()}_${this.messageId++}`] *)
Definition generateId (now : Z) : M jsstring :=
  fun b =>
    (Normal (js "cmd_" ++ integer_toString now ++ js "_"
             ++ integer_toString (messageId b)),
     set_messageId (increment (messageId b)) b).

(** The two errors that [initialize] throws. *)
Definition cli_not_found : JsError :=
  Error (js "Figma CLI not found. Please install it with "
         ++ 34 :: js "npm install -g @figma/plugin-cli" ++ [34]).

Definition plugin_dir_not_found (pluginPath : jsstring) : JsError :=
  Error (js "Figma plugin directory not found at " ++ pluginPath).

(** The error of [sendCommand] when the child has no [stdin]. *)
Definition not_initialized : JsError :=
  Error (js "Plugin process not initialized").

(** [initialize], up to what it finds on the machine. *)
Definition initialize (env : SpawnResult) : M unit :=
  try_catch
    (match env with
     | CliMissing => throw cli_not_found
     | PluginDirMissing pluginPath => throw (plugin_dir_not_found pluginPath)
     | Spawned proc =>
         log LogStarting ;;
         modify (set_pluginProcess (Some proc)) ;;
         log LogStarted
     end)
    (fun error => log (LogInitFailed error) ;; throw error).

(** [new Error(v)] for a value read from a reply. *)
Definition new_Error (v : Json) : JsError :=
  match v with
  | JString s => Error s
  | _ => ErrorOf v
  end.

(** The callback that [sendCommand] stores for promise [p]. *)
Definition callback (p : PromiseId) (response : Json) : M unit :=
  success <- lift (Get response (js "success")) ;;
  if truthy success then
    data <- lift (Get response (js "data")) ;;
    resolve p data
  else
    error <- lift (Get response (js "error")) ;;
    reject p (new_Error (if truthy error
                         then default (JString (js "Unknown error")) error
                         else JString (js "Unknown error"))).

(** [stdin.write(data)] *)
Definition write (data : jsstring) : M unit :=
  modify (fun b =>
    match pluginProcess b with
    | Some proc =>
        match stdin proc with
        | Some written =>
            set_pluginProcess
              (Some {| stdin := Some (written ++ [data]);
                       killed := killed proc |}) b
        | None => b
        end
    | None => b
    end).

(** The body of the promise that [sendCommand] returns (the function
    passed to [new Promise]), for the promise [p]. *)
Definition executor (now : Z) (command : PluginCommand) (p : PromiseId) : M unit :=
  try_catch
    (id <- generateId now ;;
     let message := message_of command id in
     modify (fun b => set_responseCallbacks (<[id := p]> (responseCallbacks b)) b) ;;
     proc <- gets pluginProcess ;;
     match proc ≫= stdin with
     | Some _ =>
         text <- lift (JSON_stringify message) ;;
         write (plus_newline text)
     | None => reject p not_initialized
     end)
    (fun error => reject p error).

(** [sendCommand].  The promise of the async function follows the promise
    built inside it, so the two are one promise here; it is rejected when
    [initialize] throws. *)
Definition sendCommand (env : SpawnResult) (now : Z) (command : PluginCommand)
  : M PromiseId :=
  p <- new_promise ;;
  try_catch
    (proc <- gets pluginProcess ;;
     match proc with
     | None => initialize env
     | Some _ => ret tt
     end ;;
     executor now command p)
    (fun error => reject p error) ;;
  ret p.

(** [this.responseCallbacks.has], [get] and [delete] on a value read from
    a reply: the keys are strings, and no other value equals a string. *)
Definition Map_get (m : gmap jsstring PromiseId) (k : option Json) : option PromiseId :=
  match k with
  | Some (JString s) => m !! s
  | _ => None
  end.

Definition Map_has (m : gmap jsstring PromiseId) (k : option Json) : bool :=
  match Map_get m k with Some _ => true | None => false end.

Definition Map_delete (k : option Json) (m : gmap jsstring PromiseId)
  : gmap jsstring PromiseId :=
  match k with
  | Some (JString s) => delete s m
  | _ => m
  end.

(** The body of the loop over the complete lines. *)
Definition process_line (line : jsstring) : M unit :=
  if truthy_string (trim line) then
    try_catch
      (response <- lift (JSON_parse line) ;;
       id <- lift (Get response (js "id")) ;;
       registered <- gets (fun b => truthy id && Map_has (responseCallbacks b) id) ;;
       if (registered : bool) then
         cb <- gets (fun b => Map_get (responseCallbacks b) id) ;;
         match cb with
         | Some p =>
             callback p response ;;
             modify (fun b => set_responseCallbacks (Map_delete id (responseCallbacks b)) b)
         | None => ret tt
         end
       else log (LogNoCallback response))
      (fun error => log (LogParseError error line))
  else ret tt.

Definition handlePluginOutput (data : jsstring) : M unit :=
  modify (fun b => set_messageBuffer (messageBuffer b ++ data) b) ;;
  all <- gets (fun b => split LF (messageBuffer b)) ;;
  let (popped, lines) := pop all in
  modify (set_messageBuffer (or_empty popped)) ;;
  for_of lines process_line.

(** [shutdown]: [kill()] signals the child; the bridge forgets it. *)
Definition shutdown : M unit :=
  proc <- gets pluginProcess ;;
  match proc with
  | Some _ => modify (set_pluginProcess None)
  | None => ret tt
  end.

(** The three handlers that [initialize] installs on the child. *)
Definition on_stdout (data : jsstring) : M unit := handlePluginOutput data.

Definition on_stderr (data : jsstring) : M unit := log (LogStderr data).

Definition on_exit (code : option Z) : M unit :=
  log (LogExit code) ;;
  modify (set_pluginProcess None).

Definition step (ev : Event) (b : Bridge) : Bridge :=
  match ev with
  | Call env now command => snd (sendCommand env now command b)
  | Stdout data => snd (on_stdout data b)
  | Stderr data => snd (on_stderr data b)
  | Exit code => snd (on_exit code b)
  | Shutdown => snd (shutdown b)
  end.

Definition run (evs : list Event) (b : Bridge) : Bridge :=
  fold_left (fun b ev => step ev b) evs b.

Definition reachable (b : Bridge) : Prop :=
  exists evs, b = run evs new_bridge.

(** ** Vocabulary of the statements *)

(** The complete lines of an accumulated input and the remainder after its
    last newline, as [handlePluginOutput] computes them. *)
Definition complete_lines (s : jsstring) : list jsstring :=
  snd (pop (split LF s)).

Definition carry (s : jsstring) : jsstring :=
  or_empty (fst (pop (split LF s))).

(** The state once [es] has been logged. *)
Definition logged (es : list LogEntry) (b : Bridge) : Bridge :=
  set_console (console b ++ es) b.

(** How the stored callback settles its promise on the reply [r]. *)
Definition outcome (r : Json) : PromiseState :=
  match r with
  | JObject props =>
      if truthy (assoc (js "success") props)
      then Fulfilled (assoc (js "data") props)
      else Rejected
             (new_Error (if truthy (assoc (js "error") props)
                         then default (JString (js "Unknown error"))
                                (assoc (js "error") props)
                         else JString (js "Unknown error")))
  | _ => Pending
  end.

(** The state once the reply [r] has been handed to the callback stored
    under [id] for promise [p]. *)
Definition delivered (id : jsstring) (p : PromiseId) (r : Json) (b : Bridge) : Bridge :=
  set_responseCallbacks (delete id (responseCallbacks b)) (settle p (outcome r) b).

(** The id built from a clock value and a counter value. *)
Definition make_id (now counter : Z) : jsstring :=
  js "cmd_" ++ integer_toString now ++ js "_" ++ integer_toString counter.

(** The reply [r] has no callback in [b]: its [id] is missing or falsy, is
    not a string, or is not a key of [responseCallbacks]. *)
Definition unmatched (b : Bridge) (r : Json) : Prop :=
  exists id, Get r (js "id") = Normal id
             /\ truthy id && Map_has (responseCallbacks b) id = false.

(** Two states that differ at most in what the console shows. *)
Definition same_calls (b1 b2 : Bridge) : Prop :=
  pluginProcess b1 = pluginProcess b2
  /\ responseCallbacks b1 = responseCallbacks b2
  /\ messageBuffer b1 = messageBuffer b2
  /\ messageId b1 = messageId b2
  /\ promises b1 = promises b2.

(** The child is running and its [stdin] can be written. *)
Definition writable (b : Bridge) : Prop :=
  exists proc written, pluginProcess b = Some proc /\ stdin proc = Some written.

(** What has been written to the child so far. *)
Definition written_to_child (b : Bridge) : list jsstring :=
  default [] (pluginProcess b ≫= stdin).

(** One chunk after the other through [handlePluginOutput]. *)
Definition feed (chunks : list jsstring) (b : Bridge) : Bridge :=
  fold_left (fun b data => snd (handlePluginOutput data b)) chunks b.

(** The lines that the loop of [handlePluginOutput] goes through while the
    chunks arrive one after the other, starting from the carry [buffer]. *)
Fixpoint lines_seen (buffer : jsstring) (chunks : list jsstring) : list jsstring :=
  match chunks with
  | [] => []
  | data :: rest =>
      complete_lines (buffer ++ data) ++ lines_seen (carry (buffer ++ data)) rest
  end.

(** What [JSON.parse] returns for the lines that are not blank, in order. *)
Definition decoded (buffer : jsstring) (chunks : list jsstring) : list (Completion Json) :=
  map JSON_parse
    (filter (fun line => truthy_string (trim line) = true) (lines_seen buffer chunks)).

(** The reply [r] carries an id whose call has just been answered: [b] is
    the state right after the loop body ran on a line whose reply had the
    same id and found its callback. *)
Definition already_resolved (b : Bridge) (r : Json) : Prop :=
  exists line0 r0 id p b0,
    trim line0 <> [] /\ JSON_parse line0 = Normal r0
    /\ Get r0 (js "id") = Normal (Some (JString id)) /\ id <> []
    /\ responseCallbacks b0 !! id = Some p
    /\ b = snd (process_line line0 b0)
    /\ Get r (js "id") = Normal (Some (JString id)).

(** [JSON.stringify] does not throw on the payload. *)
Definition serializable (v : JsValue) : Prop :=
  exists text, SerializeJSONProperty v = Normal text.

(** Sending commands one after the other; for each, the promise returned
    to the caller and the id that [generateId] gave to the command. *)
Fixpoint send_all (calls : list (SpawnResult * Z * PluginCommand)) (b : Bridge)
  : list (PromiseId * jsstring) * Bridge :=
  match calls with
  | [] => ([], b)
  | (env, now, command) :: rest =>
      let id := make_id now (messageId b) in
      let p := match fst (sendCommand env now command b) with
               | Normal p => p
               | Throw _ => length (promises b)
               end in
      let (sent, b') := send_all rest (snd (sendCommand env now command b)) in
      ((p, id) :: sent, b')
  end.

(** A reply as it arrives: the id it carries, its line and what the line
    parses to. *)
Record Reply : Type := {
  reply_id : jsstring;
  reply_line : jsstring;
  reply_value : Json
}.

Definition well_formed (reply : Reply) : Prop :=
  (LF ∉ reply_line reply)
  /\ trim (reply_line reply) <> []
  /\ JSON_parse (reply_line reply) = Normal (reply_value reply)
  /\ Get (reply_value reply) (js "id") = Normal (Some (JString (reply_id reply))).

(** Each reply on a line of its own. *)
Definition reply_chunks (replies : list Reply) : list jsstring :=
  (fun reply => reply_line reply ++ [LF]) <$> replies.

(** The counter stays between 0 and 2^53, and every stored callback sits
    under an id built from a counter value that has been passed (or from
    any value up to 2^53 once the counter is stuck there). *)
Definition numbered (b : Bridge) : Prop :=
  (0 <= messageId b <= MAX_EXACT)%Z
  /\ forall k p, responseCallbacks b !! k = Some p ->
       exists now counter, k = make_id now counter
         /\ ((counter < messageId b)%Z \/ messageId b = MAX_EXACT).

(** A child whose [stdin] is a pipe, nothing written yet. *)
Definition fresh_child : ChildProcess := {| stdin := Some []; killed := false |}.

(** A child that [spawn] returned without a [stdin] stream. *)
Definition child_without_stdin : ChildProcess := {| stdin := None; killed := false |}.

Definition get_selection : PluginCommand :=
  {| type := GET_SELECTION; payload := VUndefined |}.

(** The bridge after 2^53 calls. *)
Definition exhausted : Bridge :=
  run (repeat (Call (Spawned fresh_child) 0 get_selection) (Z.to_nat MAX_EXACT))
    new_bridge.

(** The state once the promise of a call has been created. *)
Definition with_new_promise (b : Bridge) : Bridge :=
  set_promises (promises b ++ [Pending]) b.

(** The child that the body of [sendCommand] finds: the one the bridge
    holds, or the one [initialize] has just spawned. *)
Definition child_at_send (env : SpawnResult) (b : Bridge) : option ChildProcess :=
  match pluginProcess b with
  | Some proc => Some proc
  | None =>
      match env with
      | Spawned proc => Some proc
      | _ => None
      end
  end.

(** ** Concrete runs *)

(** A bridge that has sent one command, at clock value 1, to a child it
    has just spawned: the call with id [cmd_1_0] is pending. *)
Definition started : Bridge :=
  run [Call (Spawned fresh_child) 1 get_selection] new_bridge.

(** The bridge after 2^53 calls and one more. *)
Definition past_exhausted : Bridge :=
  step (Call (Spawned fresh_child) 0 get_selection) exhausted.

(** A command whose payload holds a newline. *)
Definition add_element : PluginCommand :=
  {| type := ADD_ELEMENT;
     payload := VObject [(js "text", VString [104; 105; 10; 33])] |}.

(** A command whose payload cannot be serialized. *)
Definition export_design : PluginCommand :=
  {| type := EXPORT_DESIGN; payload := VObject [(js "scale", VBigInt 2)] |}.

(** The line of a reply that reports success, and of one that reports an
    error, for the command with the given id. *)
Definition success_line (id : jsstring) : jsstring :=
  123 :: QuoteJSONString (js "id") ++ 58 :: QuoteJSONString id
  ++ 44 :: QuoteJSONString (js "success") ++ 58 :: js "true" ++ [125].

Definition failure_line (id message : jsstring) : jsstring :=
  123 :: QuoteJSONString (js "id") ++ 58 :: QuoteJSONString id
  ++ 44 :: QuoteJSONString (js "success") ++ 58 :: js "false"
  ++ 44 :: QuoteJSONString (js "error") ++ 58 :: QuoteJSONString message
  ++ [125].

Definition success_reply (id : jsstring) : Reply :=
  {| reply_id := id;
     reply_line := success_line id;
     reply_value := JObject [(js "success", JBool true); (js "id", JString id)] |}.

Definition failure_reply (id message : jsstring) : Reply :=
  {| reply_id := id;
     reply_line := failure_line id message;
     reply_value := JObject [(js "error", JString message);
                             (js "success", JBool false);
                             (js "id", JString id)] |}.


(** ** The functions of the module around the class *)

(** [sendPluginCommand]: [getPluginBridge().sendCommand(command)].  The
    bridge is the one instance that [getInstance] keeps, which is the state
    that these computations run on. *)
Definition sendPluginCommand (env : SpawnResult) (now : Z) (command : PluginCommand)
  : M PromiseId :=
  sendCommand env now command.

(** [getCurrentSelection] and [getCurrentPage]: commands without payload. *)
Definition getCurrentSelection (env : SpawnResult) (now : Z) : M PromiseId :=
  sendPluginCommand env now {| type := GET_SELECTION; payload := VUndefined |}.

Definition getCurrentPage (env : SpawnResult) (now : Z) : M PromiseId :=
  sendPluginCommand env now {| type := GET_CURRENT_PAGE; payload := VUndefined |}.

(** [l1] is the beginning of [l2]. *)
Definition begins_with {A : Type} (l2 l1 : list A) : Prop :=
  exists more, l2 = l1 ++ more.

(** Only white space (in the sense of [trim]: spaces, tabs, line
    terminators, ...). *)
Definition blank (s : jsstring) : Prop :=
  Forall (fun c => is_white_space c = true) s.

(** A string between double quotes. *)
Definition quoted (s : jsstring) : jsstring := 34 :: s ++ [34].

(** Code units that [QuoteJSONString] copies as they are. *)
Definition plain (c : N) : Prop :=
  32 <= c /\ c <> 34 /\ c <> 92 /\ c < 55296.

(** Every stored callback belongs to a promise that exists and has not
    been fulfilled, and no promise has its callback under two ids. *)
Definition callbacks_sound (b : Bridge) : Prop :=
  forall k (p : PromiseId), responseCallbacks b !! k = Some p ->
    (p < length (promises b))%nat
    /\ (forall v, promises b !! p <> Some (Fulfilled v))
    /\ (forall k', responseCallbacks b !! k' = Some p -> k' = k).

(** The started bridge once the reply to its call has arrived. *)
Definition answered : Bridge :=
  run [Call (Spawned fresh_child) 1 get_selection;
       Stdout (success_line (js "cmd_1_0") ++ [LF])] new_bridge.


(** ** Splitting at newlines *)

Definition cons_head (c : N) (l : list jsstring) : list jsstring :=
  match l with
  | [] => [[c]]
  | seg :: segs => (c :: seg) :: segs
  end.

Lemma split_cons sep c r :
  split sep (c :: r) =
  if N.eqb c sep then [] :: split sep r else cons_head c (split sep r).
Proof. reflexivity. Qed.

Lemma split_not_nil sep s : split sep s <> [].
Proof.
  destruct s as [|c r]; [discriminate|].
  rewrite split_cons. destruct (N.eqb c sep); [discriminate|].
  destruct (split sep r); discriminate.
Qed.

Lemma last_cons_not_nil {A} (x : A) l : l <> [] -> last (x :: l) = last l.
Proof. destruct l; [congruence | reflexivity]. Qed.

Lemma removelast_cons_not_nil {A} (x : A) l :
  l <> [] -> removelast (x :: l) = x :: removelast l.
Proof. destruct l; [congruence | reflexivity]. Qed.

Lemma or_empty_Some t : or_empty (Some t) = t.
Proof. by destruct t. Qed.

Lemma last_split_is_Some sep s : exists t, last (split sep s) = Some t.
Proof.
  destruct (last (split sep s)) as [t|] eqn:E; [eauto|].
  apply last_None in E. by apply split_not_nil in E.
Qed.

(** The segment after the last separator holds no separator. *)
Lemma last_split_no_sep sep s t : last (split sep s) = Some t -> sep ∉ t.
Proof.
  revert t. induction s as [|c r IH]; intros t.
  - simpl. intros [= <-]. apply not_elem_of_nil.
  - rewrite split_cons. destruct (N.eqb_spec c sep) as [->|Hne].
    + rewrite last_cons_not_nil by apply split_not_nil. apply IH.
    + destruct (split sep r) as [|seg [|seg' segs]] eqn:Es; simpl.
      * by apply split_not_nil in Es.
      * intros [= <-]. apply not_elem_of_cons. split; [congruence|].
        by apply IH.
      * intros H. by apply IH.
Qed.

(** Splitting an input that arrives in two parts. *)
Lemma split_app sep s1 s2 :
  split sep (s1 ++ s2) =
  removelast (split sep s1)
  ++ split sep (or_empty (last (split sep s1)) ++ s2).
Proof.
  induction s1 as [|c r IH]; [reflexivity|].
  rewrite <- app_comm_cons, !split_cons.
  destruct (N.eqb_spec c sep) as [->|Hne].
  - rewrite removelast_cons_not_nil, last_cons_not_nil by apply split_not_nil.
    by rewrite IH.
  - rewrite IH. destruct (split sep r) as [|seg [|seg' segs]] eqn:Es.
    + by apply split_not_nil in Es.
    + change (last [seg]) with (Some seg).
      change (last (cons_head c [seg])) with (Some (c :: seg)).
      rewrite !or_empty_Some. simpl. destruct (N.eqb_spec c sep); done.
    + reflexivity.
Qed.

(** The input is its complete lines, each closed by the separator, followed
    by the last segment. *)
Lemma split_flatten sep s :
  s = concat (map (fun l => l ++ [sep]) (removelast (split sep s)))
      ++ or_empty (last (split sep s)).
Proof.
  induction s as [|c r IH]; [reflexivity|].
  rewrite split_cons. destruct (N.eqb_spec c sep) as [->|Hne].
  - rewrite removelast_cons_not_nil, last_cons_not_nil by apply split_not_nil.
    simpl. by rewrite <- IH.
  - destruct (split sep r) as [|seg [|seg' segs]] eqn:Es.
    + by apply split_not_nil in Es.
    + change (last [seg]) with (Some seg) in IH.
      change (last (cons_head c [seg])) with (Some (c :: seg)).
      rewrite or_empty_Some in *. simpl in *. by rewrite IH.
    + rewrite IH at 1. reflexivity.
Qed.

Lemma split_line sep line :
  sep ∉ line -> split sep (line ++ [sep]) = [line; []].
Proof.
  induction line as [|c r IH]; intros H.
  - simpl. by rewrite N.eqb_refl.
  - apply not_elem_of_cons in H as [Hc Hr].
    rewrite <- app_comm_cons, split_cons, IH by done.
    destruct (N.eqb_spec c sep); [congruence | reflexivity].
Qed.

(** ** The loop body, case by case *)

Lemma Get_object r k v : Get r k = Normal (Some v) -> exists props, r = JObject props.
Proof. destruct r; simpl; intros; simplify_eq; eauto. Qed.

Lemma callback_object p props b :
  callback p (JObject props) b = (Normal tt, settle p (outcome (JObject props)) b).
Proof.
  unfold callback, bind, lift, resolve, reject, modify. simpl.
  by destruct (truthy (assoc (js "success") props)).
Qed.

Lemma process_line_blank line b :
  trim line = [] -> process_line line b = (Normal tt, b).
Proof. intros H. unfold process_line. by rewrite H. Qed.

Lemma process_line_parse_error line e b :
  trim line <> [] -> JSON_parse line = Throw e ->
  process_line line b = (Normal tt, logged [LogParseError e line] b).
Proof.
  intros Ht Hp. unfold process_line, try_catch, bind, lift.
  destruct (trim line); [done|]. simpl. by rewrite Hp.
Qed.

Lemma process_line_null line b :
  trim line <> [] -> JSON_parse line = Normal JNull ->
  process_line line b =
  (Normal tt,
   logged [LogParseError (TypeError (js "Cannot read properties of null")) line] b).
Proof.
  intros Ht Hp. unfold process_line, try_catch, bind, lift.
  destruct (trim line); [done|]. simpl. by rewrite Hp.
Qed.

Lemma process_line_unmatched line r b :
  trim line <> [] -> JSON_parse line = Normal r -> unmatched b r ->
  process_line line b = (Normal tt, logged [LogNoCallback r] b).
Proof.
  intros Ht Hp (id & Hid & Hno). unfold process_line, try_catch, bind, lift, gets.
  destruct (trim line); [done|]. simpl. rewrite Hp, Hid. simpl.
  by rewrite Hno.
Qed.

Lemma process_line_matched line r id p b :
  trim line <> [] -> JSON_parse line = Normal r ->
  Get r (js "id") = Normal (Some (JString id)) -> id <> [] ->
  responseCallbacks b !! id = Some p ->
  process_line line b = (Normal tt, delivered id p r b).
Proof.
  intros Ht Hp Hid Hne Hreg.
  destruct (Get_object _ _ _ Hid) as [props ->].
  unfold process_line, try_catch, bind, lift, gets.
  destruct (trim line); [done|]. simpl. rewrite Hp.
  simpl in Hid. simpl. injection Hid as Hid. rewrite Hid. simpl.
  unfold Map_has. simpl. rewrite Hreg.
  destruct id; [done|]. simpl. rewrite Hreg, callback_object.
  unfold modify, delivered. simpl. do 2 f_equal.
  unfold settle. by destruct (promises b !! p) as [[]|].
Qed.

(** Whatever the line, the loop body completes normally, in one of four
    ways. *)
Lemma process_line_cases line b :
  process_line line b = (Normal tt, b)
  \/ (exists e, process_line line b = (Normal tt, logged [LogParseError e line] b))
  \/ (exists r, process_line line b = (Normal tt, logged [LogNoCallback r] b))
  \/ (exists r id p, responseCallbacks b !! id = Some p
        /\ process_line line b = (Normal tt, delivered id p r b)).
Proof.
  destruct (trim line) as [|c t] eqn:Ht.
  { left. by apply process_line_blank. }
  assert (Hne : trim line <> []) by (rewrite Ht; done).
  destruct (JSON_parse line) as [r|e] eqn:Hp.
  2:{ right; left. exists e. by apply process_line_parse_error. }
  destruct (Get r (js "id")) as [id|e] eqn:Hid.
  2:{ right; left. destruct r; simpl in Hid; try discriminate.
      eexists. by apply process_line_null. }
  destruct (truthy id && Map_has (responseCallbacks b) id) eqn:Hm.
  2:{ right; right; left. exists r. apply process_line_unmatched; try done.
      by exists id. }
  right; right; right.
  apply andb_true_iff in Hm as [Htr Hhas].
  unfold Map_has in Hhas.
  destruct (Map_get (responseCallbacks b) id) as [p|] eqn:Hg; [|done].
  destruct id as [[| | |s| |]|]; simpl in Hg; try discriminate.
  exists r, s, p. split; [done|].
  apply process_line_matched; try done.
  intros ->. done.
Qed.

Lemma process_line_normal line b : fst (process_line line b) = Normal tt.
Proof.
  destruct (process_line_cases line b)
    as [H|[[e H]|[[r H]|(r & id & p & _ & H)]]]; by rewrite H.
Qed.

Lemma for_of_process_line_normal lines b :
  fst (for_of lines process_line b) = Normal tt.
Proof.
  revert b. induction lines as [|l ls IH]; intros b; [reflexivity|].
  simpl. unfold bind. pose proof (process_line_normal l b) as H.
  destruct (process_line l b) as [[[]|e] b']; simpl in H; [|discriminate].
  apply IH.
Qed.

Lemma for_of_app lines1 lines2 b :
  snd (for_of (lines1 ++ lines2) process_line b) =
  snd (for_of lines2 process_line (snd (for_of lines1 process_line b))).
Proof.
  revert b. induction lines1 as [|l ls IH]; intros b; [reflexivity|].
  simpl. unfold bind. pose proof (process_line_normal l b) as H.
  destruct (process_line l b) as [[[]|e] b']; simpl in H; [|discriminate].
  apply IH.
Qed.

(** [handlePluginOutput] as the loop over the complete lines, started in
    the state that already holds the new carry. *)
Lemma handlePluginOutput_unfold data b :
  handlePluginOutput data b =
  for_of (complete_lines (messageBuffer b ++ data)) process_line
    (set_messageBuffer (carry (messageBuffer b ++ data)) b).
Proof.
  unfold handlePluginOutput, complete_lines, carry, bind, modify, gets. simpl.
  destruct (pop (split LF (messageBuffer b ++ data))) as [popped lines] eqn:E.
  simpl. reflexivity.
Qed.

(** ** What the loop reads and what it changes

    The loop body reads [responseCallbacks] and [promises] only, and
    changes nothing but these two and the console, to which it appends. *)

Definition framed (f : Bridge -> Bridge) (b : Bridge) : Prop :=
  exists es rc ps,
    forall b2, responseCallbacks b2 = responseCallbacks b ->
               promises b2 = promises b ->
               f b2 = set_console (console b2 ++ es)
                        (set_promises ps (set_responseCallbacks rc b2)).

Lemma framed_id b : framed (fun b => b) b.
Proof.
  exists [], (responseCallbacks b), (promises b). intros [] ? ?. simpl in *.
  subst. unfold set_console. simpl. by rewrite app_nil_r.
Qed.

Lemma framed_logged es b : framed (logged es) b.
Proof.
  exists es, (responseCallbacks b), (promises b). intros [] ? ?. simpl in *.
  by subst.
Qed.

Lemma framed_delivered id p r b : framed (delivered id p r) b.
Proof.
  exists [], (delete id (responseCallbacks b)), (promises (settle p (outcome r) b)).
  intros [] Hrc Hps. simpl in *. subst.
  unfold delivered, settle, set_console, set_promises, set_responseCallbacks.
  simpl. rewrite app_nil_r.
  by destruct (promises b !! p) as [[]|].
Qed.

Lemma framed_ext f g b : (forall b2, responseCallbacks b2 = responseCallbacks b ->
                                     promises b2 = promises b -> f b2 = g b2) ->
  framed g b -> framed f b.
Proof.
  intros Hfg (es & rc & ps & H). exists es, rc, ps. intros b2 H1 H2.
  rewrite Hfg by done. by apply H.
Qed.

Lemma framed_compose f g b :
  framed f b -> (forall b2, framed g b2) -> framed (fun b => g (f b)) b.
Proof.
  intros (es & rc & ps & Hf) Hg.
  destruct (Hg (f b)) as (es' & rc' & ps' & Hg').
  exists (es ++ es'), rc', ps'. intros b2 H1 H2.
  rewrite Hg'.
  - rewrite (Hf b2) by done. destruct b2. simpl. unfold set_console. simpl.
    by rewrite app_assoc.
  - rewrite (Hf b2), (Hf b) by done. reflexivity.
  - rewrite (Hf b2), (Hf b) by done. reflexivity.
Qed.

Lemma process_line_framed line b : framed (fun b => snd (process_line line b)) b.
Proof.
  destruct (trim line) as [|c t] eqn:Ht.
  { eapply framed_ext; [|apply framed_id]. intros b2 _ _.
    by rewrite process_line_blank. }
  assert (Hne : trim line <> []) by (rewrite Ht; done).
  destruct (JSON_parse line) as [r|e] eqn:Hp.
  2:{ eapply framed_ext; [|apply framed_logged]. intros b2 _ _.
      by rewrite (process_line_parse_error line e). }
  destruct (Get r (js "id")) as [id|e] eqn:Hid.
  2:{ destruct r; simpl in Hid; try discriminate.
      eapply framed_ext; [|apply framed_logged]. intros b2 _ _.
      by rewrite process_line_null. }
  destruct (truthy id && Map_has (responseCallbacks b) id) eqn:Hm.
  2:{ eapply framed_ext; [|apply (framed_logged [LogNoCallback r])].
      intros b2 Hrc _. rewrite (process_line_unmatched line r); try done.
      exists id. by rewrite Hrc. }
  apply andb_true_iff in Hm as [Htr Hhas].
  unfold Map_has in Hhas.
  destruct (Map_get (responseCallbacks b) id) as [p|] eqn:Hg; [|done].
  destruct id as [[| | |s| |]|]; simpl in Hg; try discriminate.
  eapply framed_ext; [|apply (framed_delivered s p r)].
  intros b2 Hrc _. rewrite (process_line_matched line r s p); try done.
  - intros ->. done.
  - by rewrite Hrc.
Qed.

Lemma for_of_framed lines b :
  framed (fun b => snd (for_of lines process_line b)) b.
Proof.
  revert b. induction lines as [|l ls IH]; intros b.
  - apply framed_id.
  - eapply framed_ext; [|apply (framed_compose (fun b => snd (process_line l b))
                                  (fun b => snd (for_of ls process_line b)));
                            [apply process_line_framed | apply IH]].
    intros b2 _ _. simpl. unfold bind.
    pose proof (process_line_normal l b2) as H.
    destruct (process_line l b2) as [[[]|e] b']; simpl in H; [done|discriminate].
Qed.

(** The loop neither reads nor writes the carry. *)
Lemma for_of_set_messageBuffer lines s b :
  snd (for_of lines process_line (set_messageBuffer s b)) =
  set_messageBuffer s (snd (for_of lines process_line b)).
Proof.
  destruct (for_of_framed lines b) as (es & rc & ps & H).
  rewrite (H (set_messageBuffer s b)), (H b) by done. reflexivity.
Qed.

Lemma for_of_messageBuffer lines b :
  messageBuffer (snd (for_of lines process_line b)) = messageBuffer b.
Proof.
  destruct (for_of_framed lines b) as (es & rc & ps & H).
  by rewrite (H b).
Qed.

Lemma for_of_pluginProcess lines b :
  pluginProcess (snd (for_of lines process_line b)) = pluginProcess b.
Proof.
  destruct (for_of_framed lines b) as (es & rc & ps & H).
  by rewrite (H b).
Qed.

Lemma for_of_messageId lines b :
  messageId (snd (for_of lines process_line b)) = messageId b.
Proof.
  destruct (for_of_framed lines b) as (es & rc & ps & H).
  by rewrite (H b).
Qed.

Lemma set_messageBuffer_twice s t b :
  set_messageBuffer s (set_messageBuffer t b) = set_messageBuffer s b.
Proof. reflexivity. Qed.

(** Two chunks in a row are one chunk. *)
Lemma handlePluginOutput_app data1 data2 b :
  snd (handlePluginOutput data2 (snd (handlePluginOutput data1 b))) =
  snd (handlePluginOutput (data1 ++ data2) b).
Proof.
  rewrite !handlePluginOutput_unfold.
  rewrite for_of_messageBuffer. simpl.
  rewrite app_assoc.
  unfold complete_lines, carry, pop; simpl.
  rewrite (split_app LF (messageBuffer b ++ data1) data2).
  rewrite removelast_app by apply split_not_nil.
  rewrite last_app.
  destruct (last_split_is_Some LF
              (or_empty (last (split LF (messageBuffer b ++ data1))) ++ data2))
    as [t Ht].
  rewrite Ht. rewrite for_of_app.
  rewrite !for_of_set_messageBuffer. reflexivity.
Qed.

Lemma handlePluginOutput_messageBuffer data b :
  messageBuffer (snd (handlePluginOutput data b)) = carry (messageBuffer b ++ data).
Proof. by rewrite handlePluginOutput_unfold, for_of_messageBuffer. Qed.

Lemma complete_lines_app s1 s2 :
  complete_lines (s1 ++ s2) = complete_lines s1 ++ complete_lines (carry s1 ++ s2).
Proof.
  unfold complete_lines, carry, pop. simpl.
  rewrite split_app. by rewrite removelast_app by apply split_not_nil.
Qed.

Lemma carry_app s1 s2 : carry (s1 ++ s2) = carry (carry s1 ++ s2).
Proof.
  unfold carry, pop. simpl. rewrite split_app, last_app.
  by destruct (last_split_is_Some LF (or_empty (last (split LF s1)) ++ s2)) as [t ->].
Qed.

Lemma lines_seen_concat buffer first rest :
  lines_seen buffer (first :: rest) = complete_lines (buffer ++ concat (first :: rest)).
Proof.
  revert buffer first. induction rest as [|second rest IH]; intros buffer first.
  - simpl. by rewrite !app_nil_r.
  - change (lines_seen buffer (first :: second :: rest))
      with (complete_lines (buffer ++ first)
            ++ lines_seen (carry (buffer ++ first)) (second :: rest)).
    rewrite IH. change (concat (first :: second :: rest))
      with (first ++ concat (second :: rest)).
    by rewrite app_assoc, <- complete_lines_app.
Qed.

Lemma feed_concat first rest b :
  feed (first :: rest) b = snd (handlePluginOutput (concat (first :: rest)) b).
Proof.
  revert first b. induction rest as [|second rest IH]; intros first b.
  - simpl. by rewrite app_nil_r.
  - change (feed (first :: second :: rest) b)
      with (feed (second :: rest) (snd (handlePluginOutput first b))).
    rewrite IH. change (concat (first :: second :: rest))
      with (first ++ concat (second :: rest)).
    apply handlePluginOutput_app.
Qed.

(** The lines of [lines_seen] are the ones the loop runs on. *)
Lemma feed_lines_seen first rest b :
  feed (first :: rest) b =
  snd (for_of (lines_seen (messageBuffer b) (first :: rest)) process_line
         (set_messageBuffer (carry (messageBuffer b ++ concat (first :: rest))) b)).
Proof. by rewrite feed_concat, handlePluginOutput_unfold, lines_seen_concat. Qed.


Lemma last_closed_lines sep (lines : list jsstring) :
  lines <> [] -> last (concat (map (fun l => l ++ [sep]) lines)) = Some sep.
Proof.
  induction lines as [|l ls IH]; [done|]. intros _. simpl.
  destruct ls as [|l' ls'].
  - simpl. rewrite app_nil_r. apply last_snoc.
  - rewrite last_app, IH by done. reflexivity.
Qed.

(** C10: after every call of [handlePluginOutput] the carry holds no
    newline, and it is what follows the last newline of the accumulated
    input (the old carry followed by the new data): the input is the carry
    preceded by a part that is empty or ends with a newline. *)
Theorem messageBuffer_after_last_newline (data : jsstring) (b : Bridge) :
  (LF ∉ messageBuffer (snd (handlePluginOutput data b)))
  /\ exists consumed,
       messageBuffer b ++ data
       = consumed ++ messageBuffer (snd (handlePluginOutput data b))
       /\ (consumed = [] \/ last consumed = Some LF).
Proof.
  rewrite handlePluginOutput_messageBuffer. unfold carry, pop. simpl.
  destruct (last_split_is_Some LF (messageBuffer b ++ data)) as [t Ht].
  split.
  - rewrite Ht, or_empty_Some. by apply (last_split_no_sep LF _ _ Ht).
  - exists (concat (map (fun l => l ++ [LF])
                      (removelast (split LF (messageBuffer b ++ data))))).
    split; [apply split_flatten|].
    destruct (removelast (split LF (messageBuffer b ++ data))) eqn:E;
      [by left | right].
    by apply last_closed_lines.
Qed.

(** ** The console is write-only *)

Lemma same_calls_refl b : same_calls b b.
Proof. by repeat split. Qed.

Lemma same_calls_logged es b : same_calls (logged es b) b.
Proof. by repeat split. Qed.

Lemma same_calls_handlePluginOutput data b1 b2 :
  same_calls b1 b2 ->
  same_calls (snd (handlePluginOutput data b1)) (snd (handlePluginOutput data b2)).
Proof.
  intros (Hp & Hrc & Hbuf & Hid & Hps).
  rewrite !handlePluginOutput_unfold, Hbuf.
  destruct (for_of_framed (complete_lines (messageBuffer b2 ++ data))
              (set_messageBuffer (carry (messageBuffer b2 ++ data)) b2))
    as (es & rc & ps & H).
  rewrite (H (set_messageBuffer _ b1)), (H (set_messageBuffer _ b2)) by done.
  by repeat split.
Qed.

(** ** [sendCommand], unfolded *)

Lemma executor_unfold now command p b :
  executor now command p b =
  (Normal tt,
   let id := make_id now (messageId b) in
   let b2 := set_responseCallbacks (<[id := p]> (responseCallbacks b))
               (set_messageId (increment (messageId b)) b) in
   match pluginProcess b with
   | Some proc =>
       match stdin proc with
       | Some written =>
           match JSON_stringify (message_of command id) with
           | Normal text =>
               set_pluginProcess
                 (Some {| stdin := Some (written ++ [plus_newline text]);
                          killed := killed proc |}) b2
           | Throw e => settle p (Rejected e) b2
           end
       | None => settle p (Rejected not_initialized) b2
       end
   | None => settle p (Rejected not_initialized) b2
   end).
Proof.
  destruct b as [[proc|] rc mb mi ps c];
    unfold executor, generateId, try_catch, bind, gets, modify, lift, write, reject;
    fold (make_id now mi);
    cbn beta iota delta [pluginProcess responseCallbacks messageId
      set_responseCallbacks set_messageId fst snd mbind option_bind];
    [|reflexivity].
  destruct proc as [[written|] k];
    cbn beta iota delta [stdin killed]; [|reflexivity].
  destruct (JSON_stringify _); reflexivity.
Qed.

Lemma sendCommand_unfold env now command b :
  sendCommand env now command b =
  (Normal (length (promises b)),
   match pluginProcess b with
   | Some _ =>
       snd (executor now command (length (promises b)) (with_new_promise b))
   | None =>
       match env with
       | CliMissing =>
           settle (length (promises b)) (Rejected cli_not_found)
             (logged [LogInitFailed cli_not_found] (with_new_promise b))
       | PluginDirMissing pluginPath =>
           settle (length (promises b)) (Rejected (plugin_dir_not_found pluginPath))
             (logged [LogInitFailed (plugin_dir_not_found pluginPath)]
                (with_new_promise b))
       | Spawned proc =>
           snd (executor now command (length (promises b))
                  (logged [LogStarted]
                     (set_pluginProcess (Some proc)
                        (logged [LogStarting] (with_new_promise b)))))
       end
   end).
Proof.
  unfold sendCommand, new_promise, bind, try_catch, gets, ret.
  cbn beta iota delta [fst snd pluginProcess set_promises].
  fold (with_new_promise b).
  assert (Hn : forall b0, fst (executor now command (length (promises b)) b0) = Normal tt)
    by (intros b0; by rewrite executor_unfold).
  destruct (pluginProcess b) as [proc|].
  - specialize (Hn (with_new_promise b)).
    destruct (executor _ _ _ _) as [[[]|e] b']; [reflexivity | discriminate].
  - destruct env as [|pluginPath|proc]; try reflexivity.
    unfold initialize, try_catch, bind, log, modify.
    cbn beta iota delta [fst snd].
    match goal with |- context [executor _ _ _ ?st] => specialize (Hn st) end.
    destruct (executor _ _ _ _) as [[[]|e] b']; [reflexivity | discriminate].
Qed.

Lemma settle_new_promise s b ps :
  promises b = ps ++ [Pending] ->
  settle (length ps) s b = set_promises (ps ++ [s]) b.
Proof.
  intros H. unfold settle. rewrite H.
  rewrite lookup_app_r, Nat.sub_diag by lia.
  cbn [lookup list_lookup]. rewrite insert_app_r_alt, Nat.sub_diag by lia.
  reflexivity.
Qed.

Ltac fields :=
  cbn beta iota zeta delta
    [pluginProcess responseCallbacks messageBuffer messageId promises console
     set_pluginProcess set_responseCallbacks set_messageBuffer set_messageId
     set_promises set_console with_new_promise logged fst snd stdin killed].

Ltac fields_all :=
  cbn beta iota zeta delta
    [pluginProcess responseCallbacks messageBuffer messageId promises console
     set_pluginProcess set_responseCallbacks set_messageBuffer set_messageId
     set_promises set_console with_new_promise logged fst snd stdin killed] in *.

Ltac case_stringify :=
  repeat match goal with
         | |- context [JSON_stringify ?m] => destruct (JSON_stringify m)
         end.

(** The cases of one call: the child present or spawned, with or without
    [stdin], the message serialized or not. *)
Ltac send_cases pp env :=
  rewrite ?sendCommand_unfold; fields;
  destruct pp as [[[?written|] ?k]|]; fields;
    [ | | destruct env as [| ?pluginPath |[[?written|] ?k]]; fields ];
    repeat rewrite executor_unfold; fields;
    case_stringify; fields;
    repeat match goal with
           | |- context [settle (length ?ps) ?s ?b] =>
               rewrite (settle_new_promise s b ps) by reflexivity
           end;
    fields.

Lemma same_calls_sendCommand env now command b1 b2 :
  same_calls b1 b2 ->
  fst (sendCommand env now command b1) = fst (sendCommand env now command b2)
  /\ same_calls (snd (sendCommand env now command b1))
                (snd (sendCommand env now command b2)).
Proof.
  destruct b1 as [pp1 rc1 mb1 mi1 ps1 c1], b2 as [pp2 rc2 mb2 mi2 ps2 c2].
  unfold same_calls. fields. intros (-> & -> & -> & -> & ->).
  send_cases pp2 env; unfold same_calls; fields; by repeat split.
Qed.

Lemma same_calls_step ev b1 b2 :
  same_calls b1 b2 -> same_calls (step ev b1) (step ev b2).
Proof.
  intros H. destruct ev as [env now command|data|data|code|]; simpl.
  - by apply same_calls_sendCommand.
  - by apply same_calls_handlePluginOutput.
  - destruct H as (?&?&?&?&?). by repeat split.
  - destruct H as (?&?&?&?&?). by repeat split.
  - destruct H as (Hp&?&?&?&?). unfold shutdown, bind, gets, modify, ret. simpl.
    unfold same_calls. rewrite Hp.
    destruct (pluginProcess b2) eqn:E; simpl; rewrite ?Hp, ?E; auto.
Qed.

Lemma same_calls_run evs b1 b2 :
  same_calls b1 b2 -> same_calls (run evs b1) (run evs b2).
Proof.
  revert b1 b2. induction evs as [|ev evs IH]; intros b1 b2 H; [done|].
  simpl. apply IH. by apply same_calls_step.
Qed.

Lemma handlePluginOutput_normal data b : fst (handlePluginOutput data b) = Normal tt.
Proof. rewrite handlePluginOutput_unfold. apply for_of_process_line_normal. Qed.

(** One complete line, closing what the carry holds. *)
Lemma handlePluginOutput_line line b :
  LF ∉ messageBuffer b ++ line ->
  snd (handlePluginOutput (line ++ [LF]) b) =
  snd (process_line (messageBuffer b ++ line) (set_messageBuffer [] b)).
Proof.
  intros H. rewrite handlePluginOutput_unfold.
  unfold complete_lines, carry, pop. simpl.
  rewrite app_assoc, split_line by done. simpl.
  unfold bind. pose proof (process_line_normal (messageBuffer b ++ line)
                            (set_messageBuffer [] b)) as Hn.
  destruct (process_line _ _) as [[[]|e] b']; simpl in Hn; [done|discriminate].
Qed.

Lemma promises_settle_pending p s b :
  promises b !! p = Some Pending -> promises (settle p s b) !! p = Some s.
Proof.
  intros H. unfold settle. rewrite H. simpl.
  apply list_lookup_insert_eq. by eapply lookup_lt_Some.
Qed.

Lemma promises_settle_other p q s b :
  p <> q -> promises (settle p s b) !! q = promises b !! q.
Proof.
  intros H. unfold settle. destruct (promises b !! p) as [[]|]; try done.
  simpl. by apply list_lookup_insert_ne.
Qed.

Lemma responseCallbacks_settle p s b :
  responseCallbacks (settle p s b) = responseCallbacks b.
Proof. unfold settle. by destruct (promises b !! p) as [[]|]. Qed.

Lemma already_resolved_unmatched b r : already_resolved b r -> unmatched b r.
Proof.
  intros (line0 & r0 & id & p & b0 & Ht & Hp & Hid & Hne & Hreg & -> & Hr).
  exists (Some (JString id)). split; [done|].
  rewrite (process_line_matched line0 r0 id p) by done. simpl.
  unfold Map_has. simpl. rewrite lookup_delete_eq. apply andb_false_r.
Qed.


Lemma same_calls_promises b1 b2 : same_calls b1 b2 -> promises b1 = promises b2.
Proof. by intros (?&?&?&?&?). Qed.


(** ** Sending *)

Lemma generateId_make_id now b :
  generateId now b = (Normal (make_id now (messageId b)),
                      set_messageId (increment (messageId b)) b).
Proof. reflexivity. Qed.

Lemma stringify_message command id text :
  SerializeJSONProperty (payload command) = Normal text ->
  JSON_stringify (message_of command id) =
  Normal (Some (123 :: join_comma
                  ((QuoteJSONString (js "type")
                      ++ 58 :: QuoteJSONString (type_name (type command)))
                   :: match text with
                      | Some t => [QuoteJSONString (js "payload") ++ 58 :: t]
                      | None => []
                      end
                   ++ [QuoteJSONString (js "id") ++ 58 :: QuoteJSONString id])
                ++ [125])).
Proof.
  intros H. unfold JSON_stringify, message_of.
  cbn [SerializeJSONProperty]. rewrite H. by destruct text.
Qed.

Lemma stringify_message_throw command id e :
  SerializeJSONProperty (payload command) = Throw e ->
  JSON_stringify (message_of command id) = Throw e.
Proof.
  intros H. unfold JSON_stringify, message_of.
  cbn [SerializeJSONProperty]. by rewrite H.
Qed.

(** A call on a running child whose payload serializes: a new pending
    promise, its callback stored under the new id, the counter advanced and
    one record written. *)
Lemma sendCommand_sent env now command b proc written text :
  pluginProcess b = Some proc -> stdin proc = Some written ->
  JSON_stringify (message_of command (make_id now (messageId b))) = Normal text ->
  sendCommand env now command b =
  (Normal (length (promises b)),
   {| pluginProcess :=
        Some {| stdin := Some (written ++ [plus_newline text]);
                killed := killed proc |};
      responseCallbacks :=
        <[make_id now (messageId b) := length (promises b)]> (responseCallbacks b);
      messageBuffer := messageBuffer b;
      messageId := increment (messageId b);
      promises := promises b ++ [Pending];
      console := console b |}).
Proof.
  destruct b as [pp rc mb mi ps c], proc as [inp k]. fields_all.
  intros -> -> Hs.
  rewrite sendCommand_unfold. fields. rewrite executor_unfold. fields.
  rewrite Hs. reflexivity.
Qed.

Lemma make_id_not_nil now counter : make_id now counter <> [].
Proof. discriminate. Qed.

Lemma serializable_message command id :
  serializable (payload command) ->
  exists text, JSON_stringify (message_of command id) = Normal text.
Proof. intros [text H]. rewrite (stringify_message _ _ text H). eauto. Qed.

Lemma send_all_spec calls : forall b,
  writable b ->
  Forall (fun call => serializable (payload call.2)) calls ->
  writable (send_all calls b).2
  /\ messageBuffer (send_all calls b).2 = messageBuffer b
  /\ (length (promises b) <= length (promises (send_all calls b).2))%nat
  /\ (forall p id, (p, id) ∈ (send_all calls b).1 ->
        (length (promises b) <= p)%nat
        /\ promises (send_all calls b).2 !! p = Some Pending
        /\ id <> [])
  /\ NoDup ((send_all calls b).1.*1)
  /\ (forall q, (q < length (promises b))%nat ->
        promises (send_all calls b).2 !! q = promises b !! q)
  /\ (forall k, k ∉ (send_all calls b).1.*2 ->
        responseCallbacks (send_all calls b).2 !! k = responseCallbacks b !! k)
  /\ (NoDup ((send_all calls b).1.*2) ->
      forall p id, (p, id) ∈ (send_all calls b).1 ->
        responseCallbacks (send_all calls b).2 !! id = Some p).
Proof.
  induction calls as [|[[env now] command] rest IH]; intros b Hw Hser.
  { simpl. split_and!; try done.
    - intros p id H. by apply elem_of_nil in H.
    - apply NoDup_nil_2.
    - intros _ p id H. by apply elem_of_nil in H. }
  apply Forall_cons in Hser as [Hs Hser]. simpl in Hs.
  destruct Hw as (proc & written & Hp & Hin).
  destruct (serializable_message command (make_id now (messageId b)) Hs)
    as [text Htext].
  cbn [send_all].
  rewrite (sendCommand_sent env now command b proc written text) by done.
  cbn [fst snd].
  set (b1 := {| pluginProcess := _ |}).
  assert (Hw1 : writable b1) by (eexists _, _; split; reflexivity).
  specialize (IH b1 Hw1 Hser).
  destruct (send_all rest b1) as [sent b'] eqn:E. cbn [fst snd] in IH |- *.
  destruct IH as (Hw' & Hbuf & Hlen & Hin' & Hnd & Hfr & Hrc & Hreg).
  assert (Hlen1 : length (promises b1) = S (length (promises b)))
    by (unfold b1; cbn [promises]; rewrite length_app; cbn [length]; lia).
  assert (Hb1p : promises b1 = promises b ++ [Pending]) by reflexivity.
  assert (Hb1rc : responseCallbacks b1
                  = <[make_id now (messageId b) := length (promises b)]>
                      (responseCallbacks b)) by reflexivity.
  split_and!.
  - done.
  - done.
  - lia.
  - intros p id H. apply elem_of_cons in H as [[= -> ->]|H].
    + split_and!; [lia| |apply make_id_not_nil].
      rewrite Hfr by lia. rewrite Hb1p.
      by rewrite lookup_app_r, Nat.sub_diag by lia.
    + destruct (Hin' _ _ H) as (? & ? & ?). split_and!; [lia|done|done].
  - rewrite fmap_cons. apply NoDup_cons. split; [|done].
    intros Hel. apply list_elem_of_fmap in Hel as ([p id] & Heq & Hel).
    cbn [fst] in Heq. subst p. destruct (Hin' _ _ Hel) as (? & ? & ?). lia.
  - intros q Hq. rewrite Hfr by lia. rewrite Hb1p. by rewrite lookup_app_l by lia.
  - intros k Hk. rewrite fmap_cons in Hk.
    apply not_elem_of_cons in Hk as [Hk1 Hk2].
    rewrite Hrc by done. rewrite Hb1rc. by rewrite lookup_insert_ne.
  - intros Hnd2 p id H. rewrite fmap_cons in Hnd2.
    apply NoDup_cons in Hnd2 as [Hnotin Hnd2].
    apply elem_of_cons in H as [[= -> ->]|H].
    + rewrite Hrc by done. rewrite Hb1rc. by rewrite lookup_insert_eq.
    + by apply Hreg.
Qed.

(** ** Delivering *)

(** A well-formed reply on a line of its own, received with an empty
    carry while its callback is stored. *)
Lemma handlePluginOutput_reply reply p b :
  messageBuffer b = [] -> well_formed reply -> reply_id reply <> [] ->
  responseCallbacks b !! reply_id reply = Some p ->
  snd (handlePluginOutput (reply_line reply ++ [LF]) b)
  = delivered (reply_id reply) p (reply_value reply) b.
Proof.
  intros Hbuf (Hlf & Ht & Hp & Hid) Hne Hreg.
  rewrite handlePluginOutput_line by (by rewrite Hbuf).
  rewrite Hbuf. simpl.
  rewrite (process_line_matched _ (reply_value reply) (reply_id reply) p) by done.
  simpl. destruct b. simpl in Hbuf. by subst.
Qed.

Lemma feed_replies order : forall b,
  messageBuffer b = [] ->
  Forall well_formed order ->
  NoDup (reply_id <$> order) ->
  (forall reply, reply ∈ order ->
     reply_id reply <> []
     /\ exists p, responseCallbacks b !! reply_id reply = Some p
                  /\ promises b !! p = Some Pending) ->
  (forall reply1 reply2 p, reply1 ∈ order -> reply2 ∈ order ->
     responseCallbacks b !! reply_id reply1 = Some p ->
     responseCallbacks b !! reply_id reply2 = Some p ->
     reply_id reply1 = reply_id reply2) ->
  (forall reply p, reply ∈ order ->
     responseCallbacks b !! reply_id reply = Some p ->
     promises (feed (reply_chunks order) b) !! p
     = Some (outcome (reply_value reply)))
  /\ (forall q, (forall reply, reply ∈ order ->
                   responseCallbacks b !! reply_id reply <> Some q) ->
        promises (feed (reply_chunks order) b) !! q = promises b !! q).
Proof.
  induction order as [|reply rest IH]; intros b Hbuf Hwf Hnd Hreg Hinj.
  { split; [intros ? ? H; by apply elem_of_nil in H | done]. }
  apply Forall_cons in Hwf as [Hwf Hwfs].
  rewrite fmap_cons in Hnd. apply NoDup_cons in Hnd as [Hnotin Hnd].
  destruct (Hreg reply) as (Hne & p & Hp & Hpend); [by left|].
  assert (Hother : forall reply', reply' ∈ rest -> reply_id reply' <> reply_id reply).
  { intros reply' Hel Heq. apply Hnotin. rewrite <- Heq.
    by apply list_elem_of_fmap_2. }
  change (feed (reply_chunks (reply :: rest)) b)
    with (feed (reply_chunks rest)
            (snd (handlePluginOutput (reply_line reply ++ [LF]) b))).
  rewrite (handlePluginOutput_reply reply p b) by done.
  set (b1 := delivered _ _ _ b).
  assert (Hrc1 : forall reply', reply' ∈ rest ->
            responseCallbacks b1 !! reply_id reply'
            = responseCallbacks b !! reply_id reply').
  { intros reply' Hel. unfold b1, delivered. fields.
    by rewrite lookup_delete_ne by (apply not_eq_sym; by apply Hother). }
  assert (Hps1 : forall q, q <> p -> promises b1 !! q = promises b !! q).
  { intros q Hq. unfold b1, delivered. fields.
    by apply promises_settle_other. }
  assert (Hp1 : promises b1 !! p = Some (outcome (reply_value reply))).
  { unfold b1, delivered. fields. by apply promises_settle_pending. }
  assert (Hnotp : forall reply', reply' ∈ rest ->
            responseCallbacks b !! reply_id reply' <> Some p).
  { intros reply' Hel Heq. apply (Hother reply' Hel).
    apply (Hinj reply' reply p); [by right | by left | done | done]. }
  destruct (IH b1) as [IHa IHb].
  - unfold b1, delivered, settle. by destruct (promises b !! p) as [[]|].
  - done.
  - done.
  - intros reply' Hel. destruct (Hreg reply') as (Hne' & p' & Hp' & Hpend');
      [by right|]. split; [done|]. exists p'. rewrite Hrc1 by done.
    split; [done|]. rewrite Hps1; [done|]. intros ->. by apply (Hnotp reply').
  - intros reply1 reply2 q H1 H2. rewrite !Hrc1 by done.
    apply Hinj; by right.
  - split.
    + intros reply0 p0 Hel Hp0. apply elem_of_cons in Hel as [->|Hel].
      * assert (p0 = p) as -> by congruence.
        rewrite IHb; [done|]. intros reply' Hel'. rewrite Hrc1 by done.
        by apply Hnotp.
      * apply IHa; [done|]. by rewrite Hrc1.
    + intros q Hq. rewrite IHb.
      * apply Hps1. intros ->. by apply (Hq reply); [left|].
      * intros reply' Hel. rewrite Hrc1 by done. apply Hq. by right.
Qed.

Lemma NoDup_fst_functional {A B} (l : list (A * B)) x y1 y2 :
  NoDup (l.*1) -> (x, y1) ∈ l -> (x, y2) ∈ l -> y1 = y2.
Proof.
  induction l as [|[a c] l IH]; intros Hnd H1 H2.
  { by apply elem_of_nil in H1. }
  rewrite fmap_cons in Hnd. apply NoDup_cons in Hnd as [Hnotin Hnd].
  apply elem_of_cons in H1 as [E1|H1]; apply elem_of_cons in H2 as [E2|H2].
  - congruence.
  - exfalso. apply Hnotin. injection E1 as -> ->.
    apply list_elem_of_fmap. by exists (a, y2).
  - exfalso. apply Hnotin. injection E2 as -> ->.
    apply list_elem_of_fmap. by exists (a, y1).
  - by apply IH.
Qed.

Lemma outcome_of_reply r id :
  Get r (js "id") = Normal (Some (JString id)) -> outcome r <> Pending.
Proof.
  intros H. destruct (Get_object _ _ _ H) as [props ->]. simpl.
  by destruct (truthy (assoc (js "success") props)).
Qed.


(** ** Ids *)

Lemma uint_units_inj u u' : uint_units u = uint_units u' -> u = u'.
Proof.
  revert u'. induction u; destruct u'; simpl; intros H; simplify_eq;
    try done; f_equal; auto.
Qed.

Lemma uint_units_digits u c : c ∈ uint_units u -> 48 <= c <= 57.
Proof.
  induction u; simpl; intros H; try (by apply elem_of_nil in H);
    apply elem_of_cons in H as [->|H]; auto; lia.
Qed.

Lemma integer_toString_inj z z' :
  integer_toString z = integer_toString z' -> z = z'.
Proof.
  unfold integer_toString. intros H.
  assert (Hint : Z.to_int z = Z.to_int z').
  { destruct (Z.to_int z) as [u|u], (Z.to_int z') as [u'|u'].
    - f_equal. by apply uint_units_inj.
    - exfalso. assert (Hd : 45 ∈ uint_units u) by (rewrite H; by left).
      apply uint_units_digits in Hd. lia.
    - exfalso. assert (Hd : 45 ∈ uint_units u') by (rewrite <- H; by left).
      apply uint_units_digits in Hd. lia.
    - injection H as H. f_equal. by apply uint_units_inj. }
  rewrite <- (DecimalZ.of_to z), <- (DecimalZ.of_to z'). by rewrite Hint.
Qed.

Lemma integer_toString_no_underscore z : 95 ∉ integer_toString z.
Proof.
  unfold integer_toString. intros H.
  destruct (Z.to_int z) as [u|u].
  - apply uint_units_digits in H. lia.
  - apply elem_of_cons in H as [H|H]; [lia|].
    apply uint_units_digits in H. lia.
Qed.

Lemma app_sep_inj (sep : N) (a a' x x' : jsstring) :
  sep ∉ a -> sep ∉ a' -> a ++ sep :: x = a' ++ sep :: x' -> a = a' /\ x = x'.
Proof.
  revert a'. induction a as [|c a IH]; intros [|c' a'] Ha Ha' H; simpl in H.
  - injection H as ->. done.
  - injection H as <- _. exfalso. apply Ha'. by left.
  - injection H as -> _. exfalso. apply Ha. by left.
  - injection H as -> H. apply not_elem_of_cons in Ha as [_ Ha].
    apply not_elem_of_cons in Ha' as [_ Ha'].
    destruct (IH a' Ha Ha' H) as [-> ->]. done.
Qed.

(** The id determines the clock value and the counter value it was built
    from. *)
Lemma make_id_inj now counter now' counter' :
  make_id now counter = make_id now' counter' -> now = now' /\ counter = counter'.
Proof.
  unfold make_id. intros H. apply app_inv_head in H.
  change (js "_") with [95] in H. simpl in H.
  apply app_sep_inj in H as [H1 H2]; try apply integer_toString_no_underscore.
  split; by apply integer_toString_inj.
Qed.

Lemma increment_ge x : (x <= increment x)%Z.
Proof. unfold increment. destruct (Z.ltb_spec x MAX_EXACT); lia. Qed.

Lemma increment_below x : (x < MAX_EXACT)%Z -> increment x = (x + 1)%Z.
Proof. unfold increment. destruct (Z.ltb_spec x MAX_EXACT); lia. Qed.

Lemma increment_saturated : increment MAX_EXACT = MAX_EXACT.
Proof. reflexivity. Qed.

(** A call either leaves the counter and the callbacks alone ([initialize]
    threw) or takes one id and stores the callback of its promise under
    it. *)
Lemma sendCommand_counter env now command b :
  (messageId (snd (sendCommand env now command b)) = messageId b
   /\ responseCallbacks (snd (sendCommand env now command b)) = responseCallbacks b)
  \/ (messageId (snd (sendCommand env now command b)) = increment (messageId b)
      /\ responseCallbacks (snd (sendCommand env now command b))
         = <[make_id now (messageId b) := length (promises b)]> (responseCallbacks b)).
Proof.
  destruct b as [pp rc mb mi ps c].
  send_cases pp env; auto.
Qed.

Lemma handlePluginOutput_messageId data b :
  messageId (snd (handlePluginOutput data b)) = messageId b.
Proof. by rewrite handlePluginOutput_unfold, for_of_messageId. Qed.

Lemma messageId_step ev b : (messageId b <= messageId (step ev b))%Z.
Proof.
  destruct ev as [env now command|data|data|code|]; cbn [step].
  - destruct (sendCommand_counter env now command b) as [[-> _]|[-> _]];
      [lia | apply increment_ge].
  - unfold on_stdout. rewrite handlePluginOutput_messageId. lia.
  - cbn. lia.
  - cbn. lia.
  - unfold shutdown, bind, gets, modify, ret. cbn [fst snd].
    destruct (pluginProcess b); cbn; lia.
Qed.

Lemma messageId_run evs b : (messageId b <= messageId (run evs b))%Z.
Proof.
  revert b. induction evs as [|ev evs IH]; intros b; simpl; [lia|].
  etransitivity; [apply (messageId_step ev)|apply IH].
Qed.

Lemma process_line_responseCallbacks line b :
  responseCallbacks (snd (process_line line b)) ⊆ responseCallbacks b.
Proof.
  destruct (process_line_cases line b)
    as [H|[[e H]|[[r H]|(r & id & p & _ & H)]]]; rewrite H; fields; try done.
  unfold delivered. fields. apply delete_subseteq.
Qed.

Lemma for_of_responseCallbacks lines b :
  responseCallbacks (snd (for_of lines process_line b)) ⊆ responseCallbacks b.
Proof.
  revert b. induction lines as [|l ls IH]; intros b; [done|].
  simpl. unfold bind. pose proof (process_line_normal l b) as H.
  pose proof (process_line_responseCallbacks l b) as Hsub.
  destruct (process_line l b) as [[[]|e] b']; simpl in H; [|discriminate].
  simpl in Hsub. etransitivity; [apply IH|done].
Qed.

Lemma handlePluginOutput_responseCallbacks data b :
  responseCallbacks (snd (handlePluginOutput data b)) ⊆ responseCallbacks b.
Proof.
  rewrite handlePluginOutput_unfold.
  apply (for_of_responseCallbacks _ (set_messageBuffer _ b)).
Qed.

Lemma numbered_new_bridge : numbered new_bridge.
Proof. split; [simpl; unfold MAX_EXACT; lia|]. intros k p H. done. Qed.

Lemma numbered_step ev b : numbered b -> numbered (step ev b).
Proof.
  intros [Hm Hk]. unfold numbered.
  destruct ev as [env now command|data|data|code|]; cbn [step].
  - destruct (sendCommand_counter env now command b) as [[Hi Hrc]|[Hi Hrc]];
      rewrite Hi, Hrc; split; try done.
    + unfold increment. destruct (Z.ltb_spec (messageId b) MAX_EXACT); lia.
    + intros k p H. unfold increment.
      destruct (decide (make_id now (messageId b) = k)) as [<-|Hne].
      * exists now, (messageId b). split; [done|].
        destruct (Z.ltb_spec (messageId b) MAX_EXACT); lia.
      * rewrite lookup_insert_ne in H by done.
        destruct (Hk k p H) as (t & n & -> & Hn). exists t, n. split; [done|].
        destruct (Z.ltb_spec (messageId b) MAX_EXACT); lia.
  - unfold on_stdout. rewrite handlePluginOutput_messageId. split; [done|].
    intros k p H. apply Hk with p.
    by eapply (lookup_weaken _ _ _ _ H), handlePluginOutput_responseCallbacks.
  - by split.
  - by split.
  - unfold shutdown, bind, gets, modify, ret. cbn [fst snd].
    destruct (pluginProcess b); by split.
Qed.

Lemma numbered_reachable b : reachable b -> numbered b.
Proof.
  intros [evs ->]. unfold run.
  rewrite <- fold_left_rev_right.
  induction (rev evs) as [|ev evs' IH]; simpl.
  - apply numbered_new_bridge.
  - by apply numbered_step.
Qed.

(** While the counter is below 2^53 the next id is under no stored
    callback. *)
Lemma next_id_fresh now b :
  numbered b -> (messageId b < MAX_EXACT)%Z ->
  responseCallbacks b !! make_id now (messageId b) = None.
Proof.
  intros [Hm Hk] Hlt.
  destruct (responseCallbacks b !! make_id now (messageId b)) as [p|] eqn:E;
    [|done].
  destruct (Hk _ _ E) as (t & n & Heq & Hn).
  apply make_id_inj in Heq as [_ <-]. lia.
Qed.


(** ** Calls that do not get sent *)

(** The child has no [stdin], or [JSON.stringify] throws: the promise is
    rejected with that failure, the callback stays under the id, the
    counter has advanced and the child is as it was. *)
Lemma sendCommand_failed env now command b proc failure :
  child_at_send env b = Some proc ->
  (stdin proc = None /\ failure = not_initialized)
  \/ (exists written, stdin proc = Some written
        /\ JSON_stringify (message_of command (make_id now (messageId b)))
           = Throw failure) ->
  fst (sendCommand env now command b) = Normal (length (promises b))
  /\ promises (snd (sendCommand env now command b))
     = promises b ++ [Rejected failure]
  /\ responseCallbacks (snd (sendCommand env now command b))
     = <[make_id now (messageId b) := length (promises b)]> (responseCallbacks b)
  /\ pluginProcess (snd (sendCommand env now command b)) = Some proc
  /\ messageId (snd (sendCommand env now command b)) = increment (messageId b).
Proof.
  destruct b as [pp rc mb mi ps c]. unfold child_at_send. fields_all.
  intros Hc Hf.
  assert (Hcases :
    (exists written k, proc = {| stdin := Some written; killed := k |}
       /\ JSON_stringify (message_of command (make_id now mi)) = Throw failure)
    \/ (exists k, proc = {| stdin := None; killed := k |}
          /\ failure = not_initialized)).
  { destruct proc as [[w|] k], Hf as [[Hn ->]|(w' & Hw & Hs)];
      cbn [stdin] in *; try discriminate; eauto. }
  rewrite sendCommand_unfold. fields.
  destruct pp as [proc'|].
  - injection Hc as ->. rewrite executor_unfold. fields.
    destruct Hcases as [(w & k & -> & Hs)|(k & -> & ->)]; fields.
    + rewrite Hs. rewrite (settle_new_promise _ _ ps) by reflexivity. fields.
      by split_and!.
    + rewrite (settle_new_promise _ _ ps) by reflexivity. fields.
      by split_and!.
  - destruct env as [| |proc']; try discriminate. injection Hc as ->.
    rewrite executor_unfold. fields.
    destruct Hcases as [(w & k & -> & Hs)|(k & -> & ->)]; fields.
    + rewrite Hs. rewrite (settle_new_promise _ _ ps) by reflexivity. fields.
      by split_and!.
    + rewrite (settle_new_promise _ _ ps) by reflexivity. fields.
      by split_and!.
Qed.

(** C6, as the code has it: when the send step fails at once (the child
    has no [stdin], or [JSON.stringify] throws), the call's promise is
    rejected with that failure and nothing is written, but the entry made
    for the call's id is not removed: the callback stays in
    [responseCallbacks]. *)
Theorem failed_send_stays_registered
    (env : SpawnResult) (now : Z) (command : PluginCommand) (b : Bridge)
    (proc : ChildProcess) (failure : JsError) :
  child_at_send env b = Some proc ->
  (stdin proc = None /\ failure = not_initialized)
  \/ (exists written, stdin proc = Some written
        /\ JSON_stringify (message_of command (make_id now (messageId b)))
           = Throw failure) ->
  fst (sendCommand env now command b) = Normal (length (promises b))
  /\ promises (snd (sendCommand env now command b)) !! length (promises b)
     = Some (Rejected failure)
  /\ responseCallbacks (snd (sendCommand env now command b))
       !! make_id now (messageId b)
     = Some (length (promises b))
  /\ written_to_child (snd (sendCommand env now command b))
     = default [] (stdin proc).
Proof.
  intros Hc Hf.
  destruct (sendCommand_failed env now command b proc failure Hc Hf)
    as (H1 & H2 & H3 & H4 & _).
  split; [done|]. split.
  { rewrite H2. by rewrite lookup_app_r, Nat.sub_diag by lia. }
  split.
  { rewrite H3. apply lookup_insert_eq. }
  unfold written_to_child. by rewrite H4.
Qed.

(** ** Ids that are taken twice *)

(** A call on a running child whose payload serializes, when the id it
    takes is already the key of a callback. *)
Lemma sendCommand_replaces env now command b p_old :
  writable b -> serializable (payload command) ->
  responseCallbacks b !! make_id now (messageId b) = Some p_old ->
  promises b !! p_old = Some Pending ->
  fst (sendCommand env now command b) = Normal (length (promises b))
  /\ length (promises b) <> p_old
  /\ responseCallbacks (snd (sendCommand env now command b))
       !! make_id now (messageId b)
     = Some (length (promises b))
  /\ (forall k, k <> make_id now (messageId b) ->
        responseCallbacks (snd (sendCommand env now command b)) !! k
        = responseCallbacks b !! k)
  /\ promises (snd (sendCommand env now command b)) !! length (promises b)
     = Some Pending
  /\ promises (snd (sendCommand env now command b)) !! p_old = Some Pending.
Proof.
  intros (proc & written & Hp & Hw) Hs Hold Hpend.
  destruct (serializable_message command (make_id now (messageId b)) Hs)
    as [text Htext].
  rewrite (sendCommand_sent env now command b proc written text) by done.
  fields. pose proof (lookup_lt_Some _ _ _ Hpend) as Hlt.
  split_and!.
  - done.
  - lia.
  - apply lookup_insert_eq.
  - intros k Hk. by apply lookup_insert_ne.
  - by rewrite lookup_app_r, Nat.sub_diag by lia.
  - by rewrite lookup_app_l by lia.
Qed.


(** ** Closing *)

Lemma shutdown_unfold b :
  shutdown b = (Normal tt, match pluginProcess b with
                           | Some _ => set_pluginProcess None b
                           | None => b
                           end).
Proof. unfold shutdown, bind, gets, modify, ret. by destruct (pluginProcess b). Qed.

Lemma on_exit_unfold code b :
  on_exit code b = (Normal tt, set_pluginProcess None (logged [LogExit code] b)).
Proof. reflexivity. Qed.

(** Closing touches neither the callbacks nor the promises nor the carry. *)
Lemma closing_frame code b closed :
  closed = snd (shutdown b) \/ closed = snd (on_exit code b) ->
  pluginProcess closed = None
  /\ responseCallbacks closed = responseCallbacks b
  /\ promises closed = promises b
  /\ messageBuffer closed = messageBuffer b.
Proof.
  intros [->| ->].
  - rewrite shutdown_unfold. fields. by destruct (pluginProcess b) eqn:E.
  - by rewrite on_exit_unfold.
Qed.

Lemma reply_after_closing code b closed reply p :
  closed = snd (shutdown b) \/ closed = snd (on_exit code b) ->
  messageBuffer b = [] -> well_formed reply -> reply_id reply <> [] ->
  responseCallbacks b !! reply_id reply = Some p ->
  promises b !! p = Some Pending ->
  promises (snd (handlePluginOutput (reply_line reply ++ [LF]) closed)) !! p
  = Some (outcome (reply_value reply)).
Proof.
  intros Hc Hbuf Hwf Hne Hreg Hpend.
  destruct (closing_frame code b closed Hc) as (_ & Hrc & Hps & Hmb).
  rewrite (handlePluginOutput_reply reply p closed); try done.
  - unfold delivered. fields. apply promises_settle_pending. by rewrite Hps.
  - by rewrite Hmb.
  - by rewrite Hrc.
Qed.


(** ** Reaching the end of the counter *)

Lemma sendCommand_spawn now command b proc written text :
  pluginProcess b = None -> stdin proc = Some written ->
  JSON_stringify (message_of command (make_id now (messageId b))) = Normal text ->
  sendCommand (Spawned proc) now command b =
  (Normal (length (promises b)),
   {| pluginProcess :=
        Some {| stdin := Some (written ++ [plus_newline text]);
                killed := killed proc |};
      responseCallbacks :=
        <[make_id now (messageId b) := length (promises b)]> (responseCallbacks b);
      messageBuffer := messageBuffer b;
      messageId := increment (messageId b);
      promises := promises b ++ [Pending];
      console := (console b ++ [LogStarting]) ++ [LogStarted] |}).
Proof.
  destruct b as [pp rc mb mi ps c], proc as [inp k]. fields_all.
  intros -> -> Hs.
  rewrite sendCommand_unfold. fields. rewrite executor_unfold. fields.
  rewrite Hs. reflexivity.
Qed.

Lemma get_selection_serializable : serializable (payload get_selection).
Proof. by exists None. Qed.

Lemma step_get_selection now b :
  pluginProcess b = None \/ writable b ->
  writable (step (Call (Spawned fresh_child) now get_selection) b)
  /\ messageId (step (Call (Spawned fresh_child) now get_selection) b)
     = increment (messageId b).
Proof.
  destruct (serializable_message get_selection (make_id now (messageId b))
              get_selection_serializable) as [text Ht].
  intros [Hnone|(proc & written & Hp & Hw)]; simpl.
  - rewrite (sendCommand_spawn now get_selection b fresh_child [] text) by done.
    split; [|done]. eexists _, _. split; reflexivity.
  - rewrite (sendCommand_sent _ now get_selection b proc written text) by done.
    split; [|done]. eexists _, _. split; reflexivity.
Qed.

Lemma run_repeat_get_selection now n : forall b,
  pluginProcess b = None \/ writable b ->
  (messageId b <= MAX_EXACT)%Z ->
  (pluginProcess (run (repeat (Call (Spawned fresh_child) now get_selection) n) b) = None
   \/ writable (run (repeat (Call (Spawned fresh_child) now get_selection) n) b))
  /\ (n <> 0%nat ->
      writable (run (repeat (Call (Spawned fresh_child) now get_selection) n) b))
  /\ messageId (run (repeat (Call (Spawned fresh_child) now get_selection) n) b)
     = Z.min (messageId b + Z.of_nat n) MAX_EXACT.
Proof.
  induction n as [|n IH]; intros b Hb Hm.
  - cbn [repeat run fold_left]. split; [done|]. split; [done|]. lia.
  - change (run (repeat ?ev (S n)) b) with (run (repeat ev n) (step ev b)).
    destruct (step_get_selection now b Hb) as [Hw Hi].
    assert (Hm' : (messageId (step (Call (Spawned fresh_child) now get_selection) b)
                   <= MAX_EXACT)%Z).
    { rewrite Hi. unfold increment.
      destruct (Z.ltb_spec (messageId b) MAX_EXACT); lia. }
    destruct (IH _ (or_intror Hw) Hm') as (Hor & Hwn & Hid).
    split; [done|]. split.
    + intros _. destruct Hor as [Hnone|Hw']; [|done].
      destruct n; [done|]. by apply Hwn.
    + rewrite Hid, Hi. unfold increment.
      destruct (Z.ltb_spec (messageId b) MAX_EXACT); lia.
Qed.

Lemma MAX_EXACT_pos : (0 < MAX_EXACT)%Z.
Proof. reflexivity. Qed.

Lemma exhausted_reachable : reachable exhausted.
Proof. unfold exhausted, reachable. eexists. reflexivity. Qed.

Lemma exhausted_messageId : messageId exhausted = MAX_EXACT.
Proof.
  unfold exhausted.
  destruct (run_repeat_get_selection 0 (Z.to_nat MAX_EXACT) new_bridge)
    as (_ & _ & H); [by left | apply Z.lt_le_incl, MAX_EXACT_pos|].
  rewrite H. change (messageId new_bridge) with 0%Z.
  rewrite Z2Nat.id by apply Z.lt_le_incl, MAX_EXACT_pos.
  apply Z.min_id.
Qed.

Lemma exhausted_writable : writable exhausted.
Proof.
  unfold exhausted.
  destruct (run_repeat_get_selection 0 (Z.to_nat MAX_EXACT) new_bridge)
    as (_ & H & _); [by left | apply Z.lt_le_incl, MAX_EXACT_pos|].
  apply H. intros H0.
  apply (f_equal Z.of_nat) in H0.
  rewrite Z2Nat.id in H0 by apply Z.lt_le_incl, MAX_EXACT_pos.
  pose proof MAX_EXACT_pos. change (Z.of_nat 0) with 0%Z in H0. lia.
Qed.

(** ** Records hold no raw newline *)

Ltac by_evaluation := apply (bool_decide_unpack _); by vm_compute.

Lemma hex_digit_not_LF n : hex_digit n <> LF.
Proof. unfold hex_digit, LF. destruct (N.ltb_spec n 10); lia. Qed.

Lemma unicode_escape_no_LF c : LF ∉ unicode_escape c.
Proof.
  unfold unicode_escape. intros H.
  repeat (apply elem_of_cons in H as [H|H];
          [first [discriminate | by eapply hex_digit_not_LF]|]).
  by apply elem_of_nil in H.
Qed.

Lemma escape_unit_no_LF c : LF ∉ escape_unit c.
Proof.
  unfold escape_unit.
  repeat match goal with
         | |- context [N.eqb c ?k] => destruct (N.eqb_spec c k); [by_evaluation|]
         end.
  destruct (_ || _); [apply unicode_escape_no_LF|].
  apply not_elem_of_cons. split; [unfold LF; congruence | apply not_elem_of_nil].
Qed.

Lemma quote_units_no_LF s : LF ∉ quote_units s.
Proof.
  assert (H : forall n s, (length s <= n)%nat -> LF ∉ quote_units s).
  { induction n as [|n IH]; intros [|c r] Hlen; simpl in Hlen;
      try apply not_elem_of_nil; [lia|].
    cbn [quote_units]. destruct r as [|d r'].
    - apply escape_unit_no_LF.
    - destruct (is_high_surrogate c && is_low_surrogate d) eqn:E.
      + apply andb_true_iff in E as [Hc Hd].
        unfold is_high_surrogate in Hc. unfold is_low_surrogate in Hd.
        apply andb_true_iff in Hc as [Hc _]. apply andb_true_iff in Hd as [Hd _].
        apply N.leb_le in Hc, Hd.
        repeat (apply not_elem_of_cons; split; [unfold LF; lia|]).
        apply IH. simpl in Hlen. lia.
      + apply not_elem_of_app. split; [apply escape_unit_no_LF|].
        apply IH. simpl in Hlen |- *. lia. }
  by apply (H (length s)).
Qed.

Lemma QuoteJSONString_no_LF s : LF ∉ QuoteJSONString s.
Proof.
  unfold QuoteJSONString. apply not_elem_of_cons. split; [done|].
  apply not_elem_of_app. split; [apply quote_units_no_LF | by_evaluation].
Qed.

Lemma join_comma_no_LF parts :
  Forall (fun t => LF ∉ t) parts -> LF ∉ join_comma parts.
Proof.
  induction 1 as [|t ts Ht Hts IH]; [apply not_elem_of_nil|].
  cbn [join_comma]. destruct ts as [|t' ts']; [done|].
  apply not_elem_of_app. split; [done|].
  apply not_elem_of_cons. split; [done | apply IH].
Qed.

(** Induction on values, through the lists they hold. *)
Lemma JsValue_nested_ind (P : JsValue -> Prop) :
  P VUndefined -> P VNull -> (forall b, P (VBoolean b)) ->
  (forall n, P (VNumber n)) -> (forall z, P (VBigInt z)) ->
  (forall s, P (VString s)) -> P VSymbol -> P VFunction ->
  (forall elems, Forall P elems -> P (VArray elems)) ->
  (forall props, Forall (fun kv => P kv.2) props -> P (VObject props)) ->
  P VCircular ->
  forall v, P v.
Proof.
  intros H1 H2 H3 H4 H5 H6 H7 H8 Harr Hobj H9.
  fix IH 1.
  intros [| |b|n|z|s| | |elems|props|];
    [exact H1|exact H2|apply H3|apply H4|apply H5|apply H6|exact H7|exact H8
    | | |exact H9].
  - apply Harr. induction elems as [|x rest IHl];
      [apply List.Forall_nil | apply List.Forall_cons; [apply IH | apply IHl]].
  - apply Hobj. induction props as [|[k x] rest IHl];
      [apply List.Forall_nil | apply List.Forall_cons; [apply IH | apply IHl]].
Qed.

Section Serialization.

(** Number::toString writes digits, a sign, a point and an exponent: no
    newline. *)
Hypothesis Number_toString_no_LF :
  forall n, Number_isFinite n = true -> LF ∉ Number_toString n.

Lemma array_no_LF parts :
  Forall (fun t => LF ∉ t) parts -> LF ∉ 91 :: join_comma parts ++ [93].
Proof.
  intros H. apply not_elem_of_cons. split; [done|].
  apply not_elem_of_app. split; [by apply join_comma_no_LF | by_evaluation].
Qed.

Lemma object_no_LF parts :
  Forall (fun t => LF ∉ t) parts -> LF ∉ 123 :: join_comma parts ++ [125].
Proof.
  intros H. apply not_elem_of_cons. split; [done|].
  apply not_elem_of_app. split; [by apply join_comma_no_LF | by_evaluation].
Qed.

Lemma member_no_LF k t : LF ∉ t -> LF ∉ QuoteJSONString k ++ 58 :: t.
Proof.
  intros H. apply not_elem_of_app. split; [apply QuoteJSONString_no_LF|].
  by apply not_elem_of_cons.
Qed.

Lemma SerializeJSONProperty_no_LF v :
  forall text, SerializeJSONProperty v = Normal (Some text) -> LF ∉ text.
Proof.
  induction v as [| |[]|n|z|s| | |elems IHe|props IHp|] using JsValue_nested_ind;
    intros text H; cbn [SerializeJSONProperty] in H.
  - discriminate.
  - injection H as <-. by_evaluation.
  - injection H as <-. by_evaluation.
  - injection H as <-. by_evaluation.
  - destruct (Number_isFinite n) eqn:E; injection H as <-;
      [by apply Number_toString_no_LF | by_evaluation].
  - discriminate.
  - injection H as <-. apply QuoteJSONString_no_LF.
  - discriminate.
  - discriminate.
  - match type of H with
    | match ?g elems with _ => _ end = _ => set (go := g) in *
    end.
    assert (Hparts : forall parts, go elems = Normal parts ->
              Forall (fun t => LF ∉ t) parts).
    { clear H. induction IHe as [|x rest Hx Hrest IH]; intros parts Hgo.
      - injection Hgo as <-. apply List.Forall_nil.
      - cbn [go] in Hgo. fold go in Hgo.
        destruct (SerializeJSONProperty x) as [o|] eqn:Ex; [|discriminate].
        destruct (go rest) as [parts'|] eqn:Er; [|discriminate].
        injection Hgo as <-. apply List.Forall_cons; [|by apply IH].
        destruct o; [by apply Hx | by_evaluation]. }
    destruct (go elems) as [parts|] eqn:Eg; [|discriminate].
    injection H as <-. by apply array_no_LF, Hparts.
  - match type of H with
    | match ?g props with _ => _ end = _ => set (go := g) in *
    end.
    assert (Hparts : forall parts, go props = Normal parts ->
              Forall (fun t => LF ∉ t) parts).
    { clear H. induction IHp as [|[k x] rest Hx Hrest IH]; intros parts Hgo.
      - injection Hgo as <-. apply List.Forall_nil.
      - cbn [snd] in Hx. cbn [go] in Hgo. fold go in Hgo.
        destruct (SerializeJSONProperty x) as [o|] eqn:Ex; [|discriminate].
        destruct (go rest) as [parts'|] eqn:Er; [|discriminate].
        injection Hgo as <-. destruct o as [t|]; [|by apply IH].
        apply List.Forall_cons; [|by apply IH].
        apply member_no_LF. by apply Hx. }
    destruct (go props) as [parts|] eqn:Eg; [|discriminate].
    injection H as <-. by apply object_no_LF, Hparts.
  - discriminate.
Qed.

(** [JSON.stringify] of a message is never [undefined]. *)
Lemma stringify_message_Some command id text :
  JSON_stringify (message_of command id) = Normal text -> exists body, text = Some body.
Proof.
  destruct (SerializeJSONProperty (payload command)) as [o|e] eqn:E.
  - rewrite (stringify_message _ _ _ E). intros [= <-]. eauto.
  - by rewrite (stringify_message_throw _ _ _ E).
Qed.


End Serialization.

(** ** Facts about the concrete runs *)

(** [exhausted] is a run of 2^53 calls: it is reasoned about through the
    three lemmas above and never evaluated. *)
Opaque exhausted.

Lemma integer_toString_no_LF z : LF ∉ integer_toString z.
Proof.
  unfold integer_toString, LF. intros H.
  destruct (Z.to_int z) as [u|u].
  - apply uint_units_digits in H. lia.
  - apply elem_of_cons in H as [H|H]; [lia|].
    apply uint_units_digits in H. lia.
Qed.

Lemma toString_integral_no_LF n :
  Number_isFinite n = true -> LF ∉ toString_integral n.
Proof.
  destruct n as [| |neg m e]; try discriminate. intros _.
  apply integer_toString_no_LF.
Qed.

Lemma past_exhausted_spec :
  writable past_exhausted
  /\ messageId past_exhausted = MAX_EXACT
  /\ responseCallbacks past_exhausted !! make_id 0 MAX_EXACT
     = Some (length (promises exhausted))
  /\ promises past_exhausted = promises exhausted ++ [Pending].
Proof.
  destruct exhausted_writable as (proc & written & Hp & Hw).
  destruct (serializable_message get_selection (make_id 0 (messageId exhausted))
              get_selection_serializable) as [text Ht].
  unfold past_exhausted. cbn [step].
  rewrite (sendCommand_sent (Spawned fresh_child) 0 get_selection exhausted
             proc written text Hp Hw Ht).
  fields. rewrite exhausted_messageId, increment_saturated.
  split; [|split; [|split]].
  - eexists _, _. split; reflexivity.
  - reflexivity.
  - apply lookup_insert_eq.
  - reflexivity.
Qed.

Lemma past_exhausted_reachable : reachable past_exhausted.
Proof.
  destruct exhausted_reachable as [evs H].
  exists (evs ++ [Call (Spawned fresh_child) 0 get_selection]).
  unfold past_exhausted, run. rewrite fold_left_app. cbn [fold_left].
  fold (run evs new_bridge). rewrite <- H. reflexivity.
Qed.

Opaque past_exhausted.

(** * Further properties of the bridge *)

(** ** The id generator *)

(** The id that [generateId] returns determines the clock value and the
    counter value it was built from: two ids are equal only if both
    agree. *)
Theorem generateId_injective (now1 now2 : Z) (b1 b2 : Bridge) :
  fst (generateId now1 b1) = fst (generateId now2 b2) ->
  now1 = now2 /\ messageId b1 = messageId b2.
Proof.
  rewrite !generateId_make_id. cbn [fst]. intros H.
  apply make_id_inj. congruence.
Qed.

Lemma reachable_run evs b : reachable b -> reachable (run evs b).
Proof.
  intros [evs0 ->]. exists (evs0 ++ evs). unfold run. by rewrite fold_left_app.
Qed.

(** On a bridge that was built by [new PluginBridge()] and driven by
    calls and events, the counter is between 0 and 2^53, and whatever
    happens next (calls, output, exit of the child, shutdown) never lowers
    it: neither [shutdown] nor a restart resets the ids. *)
Theorem counter_never_decreases (evs : list Event) (b : Bridge) :
  reachable b ->
  (0 <= messageId b <= messageId (run evs b))%Z
  /\ (messageId (run evs b) <= MAX_EXACT)%Z.
Proof.
  intros Hr. split.
  - split; [apply (numbered_reachable b Hr) | apply messageId_run].
  - apply (numbered_reachable (run evs b)). by apply reachable_run.
Qed.

(** ** Promises *)

Lemma sendCommand_promises env now command b :
  fst (sendCommand env now command b) = Normal (length (promises b))
  /\ exists state, promises (snd (sendCommand env now command b))
                   = promises b ++ [state].
Proof.
  destruct b as [pp rc mb mi ps c].
  send_cases pp env; (split; [reflexivity | eexists; reflexivity]).
Qed.

(** Every call of [sendCommand] returns normally, with a promise that did
    not exist before, and leaves the promises of all earlier calls as they
    are, whatever [initialize], the child and [JSON.stringify] do. *)
Theorem sendCommand_creates_one_promise
    (env : SpawnResult) (now : Z) (command : PluginCommand) (b : Bridge) :
  fst (sendCommand env now command b) = Normal (length (promises b))
  /\ length (promises (snd (sendCommand env now command b)))
     = S (length (promises b))
  /\ forall p state, promises b !! p = Some state ->
       promises (snd (sendCommand env now command b)) !! p = Some state.
Proof.
  destruct (sendCommand_promises env now command b) as (H1 & state & H2).
  split; [done|]. rewrite H2. split.
  - rewrite length_app. cbn [length]. lia.
  - intros p st Hp. by apply lookup_app_l_Some.
Qed.

Lemma promises_settle_settled q t b (p : PromiseId) s :
  promises b !! p = Some s -> s <> Pending ->
  promises (settle q t b) !! p = Some s.
Proof.
  intros Hp Hs. destruct (decide (q = p)) as [Heq|Hne].
  - subst q. unfold settle. rewrite Hp. by destruct s.
  - by rewrite promises_settle_other.
Qed.

Lemma length_promises_settle q t b :
  length (promises (settle q t b)) = length (promises b).
Proof.
  unfold settle. destruct (promises b !! q) as [[]|]; try done.
  cbn [promises set_promises]. apply length_insert.
Qed.

Lemma process_line_settled line b (p : PromiseId) s :
  promises b !! p = Some s -> s <> Pending ->
  promises (snd (process_line line b)) !! p = Some s.
Proof.
  intros Hp Hs.
  destruct (process_line_cases line b)
    as [H|[[e H]|[[r H]|(r & id & q & _ & H)]]]; rewrite H; fields; try done.
  unfold delivered. fields. by apply promises_settle_settled.
Qed.

Lemma for_of_settled lines : forall b (p : PromiseId) s,
  promises b !! p = Some s -> s <> Pending ->
  promises (snd (for_of lines process_line b)) !! p = Some s.
Proof.
  induction lines as [|l ls IH]; intros b p s Hp Hs; [done|].
  cbn [for_of]. unfold bind. pose proof (process_line_normal l b) as Hn.
  pose proof (process_line_settled l b p s Hp Hs) as Hl.
  destruct (process_line l b) as [[[]|e] b']; cbn [fst snd] in *; [|discriminate].
  by apply IH.
Qed.

Lemma step_settled ev b (p : PromiseId) s :
  promises b !! p = Some s -> s <> Pending ->
  promises (step ev b) !! p = Some s.
Proof.
  intros Hp Hs. destruct ev as [env now command|data|data|code|]; cbn [step].
  - destruct (sendCommand_promises env now command b) as (_ & st & ->).
    by apply lookup_app_l_Some.
  - unfold on_stdout. rewrite handlePluginOutput_unfold.
    by apply for_of_settled.
  - done.
  - done.
  - rewrite shutdown_unfold. fields. by destruct (pluginProcess b).
Qed.

(** A promise that has been settled keeps its state for ever: no later
    reply (a second one with the same id, say), call, exit or shutdown
    changes the result that a caller has received. *)
Theorem settled_promises_never_change
    (evs : list Event) (b : Bridge) (p : PromiseId) (state : PromiseState) :
  promises b !! p = Some state -> state <> Pending ->
  promises (run evs b) !! p = Some state.
Proof.
  revert b. induction evs as [|ev evs IH]; intros b Hp Hs; [done|].
  cbn [run fold_left]. apply IH; [|done]. by apply step_settled.
Qed.

(** ** What [handlePluginOutput] leaves alone *)

Lemma process_line_leaves line b :
  length (promises (snd (process_line line b))) = length (promises b)
  /\ begins_with (console (snd (process_line line b))) (console b).
Proof.
  destruct (process_line_cases line b)
    as [H|[[e H]|[[r H]|(r & id & q & _ & H)]]]; rewrite H; fields.
  - split; [done|]. exists []. by rewrite app_nil_r.
  - split; [done|]. by eexists.
  - split; [done|]. by eexists.
  - unfold delivered. fields. split; [apply length_promises_settle|].
    exists []. rewrite app_nil_r. unfold settle.
    by destruct (promises b !! q) as [[]|].
Qed.

Lemma for_of_leaves lines : forall b,
  length (promises (snd (for_of lines process_line b))) = length (promises b)
  /\ begins_with (console (snd (for_of lines process_line b))) (console b).
Proof.
  induction lines as [|l ls IH]; intros b.
  - split; [done|]. exists []. by rewrite app_nil_r.
  - cbn [for_of]. unfold bind. pose proof (process_line_normal l b) as Hn.
    destruct (process_line_leaves l b) as [Hlen [more Hmore]].
    destruct (process_line l b) as [[[]|e] b']; cbn [fst snd] in *; [|discriminate].
    destruct (IH b') as [Hlen' [more' Hmore']]. split; [congruence|].
    exists (more ++ more'). by rewrite Hmore', Hmore, app_assoc.
Qed.

(** Output of the child never reaches the child, the counter or the set
    of promises: [handlePluginOutput] leaves [pluginProcess] and
    [messageId] as they are, adds no callback (it can only remove some),
    creates no promise, and only appends to the console. *)
Theorem handlePluginOutput_leaves (data : jsstring) (b : Bridge) :
  pluginProcess (snd (handlePluginOutput data b)) = pluginProcess b
  /\ messageId (snd (handlePluginOutput data b)) = messageId b
  /\ responseCallbacks (snd (handlePluginOutput data b)) ⊆ responseCallbacks b
  /\ length (promises (snd (handlePluginOutput data b))) = length (promises b)
  /\ begins_with (console (snd (handlePluginOutput data b))) (console b).
Proof.
  split; [by rewrite handlePluginOutput_unfold, for_of_pluginProcess|].
  split; [apply handlePluginOutput_messageId|].
  split; [apply handlePluginOutput_responseCallbacks|].
  rewrite handlePluginOutput_unfold.
  apply (for_of_leaves _ (set_messageBuffer _ b)).
Qed.

(** ** Calls that [initialize] stops *)

(** When the bridge has no child and [initialize] throws (the Figma CLI is
    not installed, or the plugin directory is missing), [sendCommand]
    returns a promise rejected with that error and logs it; it takes no id,
    stores no callback and leaves the bridge without child, so the next
    call runs [initialize] again. *)
Theorem sendCommand_initialize_fails
    (env : SpawnResult) (now : Z) (command : PluginCommand) (b : Bridge)
    (failure : JsError) :
  pluginProcess b = None ->
  (env = CliMissing /\ failure = cli_not_found)
  \/ (exists pluginPath, env = PluginDirMissing pluginPath
        /\ failure = plugin_dir_not_found pluginPath) ->
  sendCommand env now command b
  = (Normal (length (promises b)),
     {| pluginProcess := None;
        responseCallbacks := responseCallbacks b;
        messageBuffer := messageBuffer b;
        messageId := messageId b;
        promises := promises b ++ [Rejected failure];
        console := console b ++ [LogInitFailed failure] |}).
Proof.
  destruct b as [pp rc mb mi ps c]. fields_all. intros -> Henv.
  rewrite sendCommand_unfold. fields.
  destruct Henv as [[-> ->]|(pluginPath & -> & ->)];
    rewrite (settle_new_promise _ _ ps) by reflexivity; reflexivity.
Qed.

(** ** Framing *)

Lemma split_no_sep sep s : sep ∉ s -> split sep s = [s].
Proof.
  induction s as [|c r IH]; intros H; [done|].
  apply not_elem_of_cons in H as [Hc Hr]. rewrite split_cons, IH by done.
  destruct (N.eqb_spec c sep); [congruence | reflexivity].
Qed.

Lemma carry_no_LF s : LF ∉ carry s.
Proof.
  unfold carry, pop. cbn [fst].
  destruct (last_split_is_Some LF s) as [t Ht].
  rewrite Ht, or_empty_Some. by apply (last_split_no_sep LF s).
Qed.

Lemma reachable_messageBuffer b : reachable b -> LF ∉ messageBuffer b.
Proof.
  intros [evs ->]. unfold run. rewrite <- fold_left_rev_right.
  induction (rev evs) as [|ev evs' IH]; cbn [fold_right].
  - apply not_elem_of_nil.
  - set (b := fold_right _ _ _) in *.
    destruct ev as [env now command|data|data|code|]; cbn [step].
    + assert (H : messageBuffer (snd (sendCommand env now command b))
                  = messageBuffer b); [|by rewrite H].
      clearbody b. clear IH. destruct b as [pp rc mb mi ps c].
      send_cases pp env; reflexivity.
    + unfold on_stdout. rewrite handlePluginOutput_messageBuffer.
      apply carry_no_LF.
    + done.
    + done.
    + rewrite shutdown_unfold. fields. by destruct (pluginProcess b).
Qed.

Lemma split_segments_no_sep sep s : Forall (fun seg => sep ∉ seg) (split sep s).
Proof.
  induction s as [|c r IH].
  - apply List.Forall_cons; [apply not_elem_of_nil | apply List.Forall_nil].
  - rewrite split_cons. destruct (N.eqb_spec c sep) as [->|Hne].
    + apply List.Forall_cons; [apply not_elem_of_nil | done].
    + destruct (split sep r) as [|seg segs]; cbn [cons_head].
      * apply List.Forall_cons; [|apply List.Forall_nil].
        apply not_elem_of_cons. split; [congruence | apply not_elem_of_nil].
      * apply Forall_cons in IH as [Hseg Hsegs].
        apply List.Forall_cons; [|done].
        apply not_elem_of_cons. split; [congruence | done].
Qed.

Lemma Forall_removelast {A} (P : A -> Prop) l : Forall P l -> Forall P (removelast l).
Proof.
  induction 1 as [|x l Hx Hl IH]; [apply List.Forall_nil|].
  destruct l as [|y l']; [apply List.Forall_nil|].
  change (removelast (x :: y :: l')) with (x :: removelast (y :: l')).
  by apply List.Forall_cons.
Qed.

(** Nothing of the child's output is lost or invented by the framing:
    over any sequence of chunks, the lines that the loop went through, each
    closed by a newline, followed by the carry that is left, are the first
    carry followed by the chunks; and none of the lines holds a newline. *)
Theorem framing_loses_nothing (first : jsstring) (rest : list jsstring) (b : Bridge) :
  concat (map (fun line => line ++ [LF])
            (lines_seen (messageBuffer b) (first :: rest)))
  ++ messageBuffer (feed (first :: rest) b)
  = messageBuffer b ++ concat (first :: rest)
  /\ Forall (fun line => LF ∉ line) (lines_seen (messageBuffer b) (first :: rest)).
Proof.
  rewrite lines_seen_concat, feed_concat, handlePluginOutput_messageBuffer.
  unfold complete_lines, carry, pop. cbn [fst snd]. split.
  - symmetry. apply split_flatten.
  - apply Forall_removelast, split_segments_no_sep.
Qed.

(** An incomplete record is never parsed: on a bridge driven from
    [new PluginBridge()], a chunk without newline is appended to the carry
    and nothing else happens; when the rest of the line arrives, the loop
    runs once, on the whole line. *)
Theorem incomplete_record_waits (data rest : jsstring) (b : Bridge) :
  reachable b -> LF ∉ data -> LF ∉ rest ->
  handlePluginOutput data b
  = (Normal tt, set_messageBuffer (messageBuffer b ++ data) b)
  /\ snd (handlePluginOutput (rest ++ [LF]) (snd (handlePluginOutput data b)))
     = snd (process_line (messageBuffer b ++ data ++ rest)
              (set_messageBuffer [] b)).
Proof.
  intros Hr Hdata Hrest.
  pose proof (reachable_messageBuffer b Hr) as Hbuf.
  assert (H1 : handlePluginOutput data b
               = (Normal tt, set_messageBuffer (messageBuffer b ++ data) b)).
  { rewrite handlePluginOutput_unfold. unfold complete_lines, carry, pop.
    rewrite split_no_sep by (apply not_elem_of_app; by split).
    cbn [fst snd last removelast for_of]. by rewrite or_empty_Some. }
  split; [done|]. rewrite H1. cbn [snd].
  rewrite handlePluginOutput_line.
  - cbn [messageBuffer set_messageBuffer]. by rewrite <- app_assoc.
  - cbn [messageBuffer set_messageBuffer].
    repeat (apply not_elem_of_app; split); done.
Qed.

Lemma trimStart_blank s : blank s -> trimStart s = [].
Proof.
  induction 1 as [|c r Hc Hr IH]; [done|]. cbn [trimStart]. by rewrite Hc.
Qed.

Lemma trim_blank s : blank s -> trim s = [].
Proof. intros H. unfold trim, trimEnd. by rewrite (trimStart_blank s H). Qed.

Lemma blank_split s : blank s -> Forall blank (split LF s).
Proof.
  induction 1 as [|c r Hc Hr IH].
  - apply List.Forall_cons; [apply List.Forall_nil | apply List.Forall_nil].
  - rewrite split_cons. destruct (N.eqb c LF).
    + apply List.Forall_cons; [apply List.Forall_nil | done].
    + destruct (split LF r) as [|seg segs]; cbn [cons_head].
      * apply List.Forall_cons; [|apply List.Forall_nil].
        by apply List.Forall_cons; [|apply List.Forall_nil].
      * apply Forall_cons in IH as [Hseg Hsegs].
        apply List.Forall_cons; [|done]. by apply List.Forall_cons.
Qed.

Lemma for_of_blank lines b :
  Forall blank lines -> for_of lines process_line b = (Normal tt, b).
Proof.
  induction 1 as [|l ls Hl Hls IH]; [done|].
  cbn [for_of]. unfold bind.
  rewrite (process_line_blank l b) by (by apply trim_blank). exact IH.
Qed.

(** White space is never parsed: when the carry and the chunk hold
    nothing but white space (blank lines, a keep-alive newline), the call
    settles nothing, removes no callback and logs nothing; only the carry
    changes. *)
Theorem blank_output_is_ignored (data : jsstring) (b : Bridge) :
  blank (messageBuffer b ++ data) ->
  handlePluginOutput data b
  = (Normal tt, set_messageBuffer (carry (messageBuffer b ++ data)) b).
Proof.
  intros H. rewrite handlePluginOutput_unfold. apply for_of_blank.
  unfold complete_lines, pop. cbn [snd].
  by apply Forall_removelast, blank_split.
Qed.

(** ** How a reply settles its call *)


(** Only a string can be the id of a reply: a reply that is a number, a
    string, a boolean or an array, an object without [id], or an object
    whose [id] is not a string (the number 5, say, while a callback is
    stored under "5") reaches no callback; it is logged as a message
    without callback and nothing else changes. *)
Theorem reply_without_string_id_is_logged (line : jsstring) (r : Json) (b : Bridge) :
  trim line <> [] -> JSON_parse line = Normal r -> r <> JNull ->
  (forall id, Get r (js "id") <> Normal (Some (JString id))) ->
  process_line line b = (Normal tt, logged [LogNoCallback r] b).
Proof.
  intros Ht Hp Hnull Hid. apply process_line_unmatched; try done.
  destruct (Get r (js "id")) as [v|e] eqn:E.
  - exists v. split; [done|].
    destruct v as [[| | |s| |]|]; unfold Map_has; cbn [Map_get];
      try apply andb_false_r.
    by destruct (Hid s).
  - destruct r; try discriminate. done.
Qed.

(** ** Commands on the wire *)

(** Calls on a running child write their records in call order, one
    record per call, after what was already written: the i-th new record
    is the JSON text of the i-th command (with some id) followed by a
    newline; none of the calls runs [initialize] again (the console is as
    it was). *)
Theorem commands_are_written_in_order
    (calls : list (SpawnResult * Z * PluginCommand)) (b : Bridge) :
  writable b ->
  Forall (fun call => serializable (payload call.2)) calls ->
  exists records,
    written_to_child (send_all calls b).2 = written_to_child b ++ records
    /\ Forall2 (fun call record =>
                  exists id body,
                    JSON_stringify (message_of call.2 id) = Normal (Some body)
                    /\ record = body ++ [LF])
               calls records
    /\ console (send_all calls b).2 = console b.
Proof.
  revert b.
  induction calls as [|[[env now] command] rest IH]; intros b Hw Hser.
  { exists []. cbn [send_all snd]. rewrite app_nil_r. split_and!; [done | | done].
    apply Forall2_nil_2. }
  apply Forall_cons in Hser as [Hs Hser]. cbn [snd] in Hs.
  destruct Hw as (proc & written & Hp & Hin).
  destruct (serializable_message command (make_id now (messageId b)) Hs)
    as [text Htext].
  destruct (stringify_message_Some _ _ _ Htext) as [body ->].
  cbn [send_all].
  rewrite (sendCommand_sent env now command b proc written (Some body) Hp Hin Htext).
  cbn [fst snd].
  set (b1 := {| pluginProcess := _ |}).
  assert (Hw1 : writable b1) by (eexists _, _; split; reflexivity).
  destruct (IH b1 Hw1 Hser) as (records & Hrec & Hall & Hcon).
  destruct (send_all rest b1) as [sent b'] eqn:E. cbn [fst snd] in *.
  exists ((body ++ [LF]) :: records). split_and!.
  - rewrite Hrec. unfold written_to_child, b1. fields. rewrite Hp.
    cbn [mbind option_bind default stdin]. rewrite Hin.
    cbn [default plus_newline id]. by rewrite <- app_assoc.
  - apply Forall2_cons; split; [|exact Hall].
    exists (make_id now (messageId b)), body. cbn [snd]. by split.
  - by rewrite Hcon.
Qed.

(** ** Restart *)

Lemma closing_messageId code b closed :
  closed = snd (shutdown b) \/ closed = snd (on_exit code b) ->
  messageId closed = messageId b /\ console closed = console b
  \/ messageId closed = messageId b /\ console closed = console b ++ [LogExit code].
Proof.
  intros [->| ->].
  - left. rewrite shutdown_unfold. fields. by destruct (pluginProcess b).
  - right. by rewrite on_exit_unfold.
Qed.

(** After the transport has closed (by [shutdown] or by the exit of the
    child), the next call spawns a new child and writes its record to it,
    as the first one; the counter goes on from where it was, and the
    callbacks of the calls that were pending stay stored beside the new
    one. *)
Theorem call_after_closing_restarts
    (code : option Z) (b closed : Bridge) (now : Z) (command : PluginCommand)
    (proc : ChildProcess) :
  closed = snd (shutdown b) \/ closed = snd (on_exit code b) ->
  stdin proc = Some [] -> serializable (payload command) ->
  fst (sendCommand (Spawned proc) now command closed) = Normal (length (promises b))
  /\ (exists record,
        written_to_child (snd (sendCommand (Spawned proc) now command closed))
        = [record])
  /\ messageId (snd (sendCommand (Spawned proc) now command closed))
     = increment (messageId b)
  /\ responseCallbacks (snd (sendCommand (Spawned proc) now command closed))
     = <[make_id now (messageId b) := length (promises b)]> (responseCallbacks b)
  /\ promises (snd (sendCommand (Spawned proc) now command closed))
     = promises b ++ [Pending].
Proof.
  intros Hc Hin Hs.
  destruct (closing_frame code b closed Hc) as (Hnone & Hrc & Hps & _).
  assert (Hid : messageId closed = messageId b)
    by (destruct (closing_messageId code b closed Hc) as [[? _]|[? _]]; done).
  destruct (serializable_message command (make_id now (messageId closed)) Hs)
    as [text Htext].
  rewrite (sendCommand_spawn now command closed proc [] text Hnone Hin Htext).
  fields. rewrite Hid, Hrc, Hps. split_and!; try done.
  exists (plus_newline text). reflexivity.
Qed.

(** ** The commands without payload *)

Lemma escape_unit_plain c : plain c -> escape_unit c = [c].
Proof.
  intros (H32 & H34 & H92 & Hsur). unfold escape_unit.
  repeat match goal with
         | |- context [N.eqb c ?k] => destruct (N.eqb_spec c k); [lia|]
         end.
  unfold is_high_surrogate, is_low_surrogate.
  destruct (N.ltb_spec c 32); [lia|].
  destruct (N.leb_spec 55296 c); [lia|].
  destruct (N.leb_spec 56320 c); [lia|]. reflexivity.
Qed.

Lemma quote_units_plain s : Forall plain s -> quote_units s = s.
Proof.
  induction 1 as [|c r Hc Hr IH]; [done|].
  cbn [quote_units]. destruct r as [|d r'].
  - by apply escape_unit_plain.
  - assert (Hh : is_high_surrogate c = false).
    { destruct Hc as (_ & _ & _ & Hsur). unfold is_high_surrogate.
      destruct (N.leb_spec 55296 c); [lia | done]. }
    rewrite Hh. cbn [andb]. rewrite escape_unit_plain by done.
    cbn [app]. by rewrite IH.
Qed.

Lemma uint_units_plain u : Forall plain (uint_units u).
Proof.
  apply Forall_forall. intros c Hc. apply uint_units_digits in Hc.
  unfold plain. lia.
Qed.

Lemma make_id_plain now counter : Forall plain (make_id now counter).
Proof.
  assert (Hint : forall z, Forall plain (integer_toString z)).
  { intros z. unfold integer_toString. destruct (Z.to_int z) as [u|u].
    - apply uint_units_plain.
    - apply List.Forall_cons; [unfold plain; lia | apply uint_units_plain]. }
  unfold make_id. repeat apply Forall_app_2; try apply Hint.
  - repeat (apply List.Forall_cons; [unfold plain; cbn; lia|]).
    apply List.Forall_nil.
  - apply List.Forall_cons; [unfold plain; cbn; lia | apply List.Forall_nil].
Qed.

(** An id needs no escaping: between quotes it is itself. *)
Lemma QuoteJSONString_make_id now counter :
  QuoteJSONString (make_id now counter) = quoted (make_id now counter).
Proof.
  unfold QuoteJSONString, quoted.
  by rewrite (quote_units_plain _ (make_id_plain now counter)).
Qed.

Lemma record_without_payload env now t b :
  writable b ->
  written_to_child (snd (sendCommand env now {| type := t; payload := VUndefined |} b))
  = written_to_child b
    ++ [js "{" ++ QuoteJSONString (js "type") ++ js ":"
        ++ QuoteJSONString (type_name t) ++ js ","
        ++ QuoteJSONString (js "id") ++ js ":"
        ++ quoted (make_id now (messageId b)) ++ js "}" ++ [LF]].
Proof.
  intros (proc & written & Hp & Hw).
  pose proof (stringify_message {| type := t; payload := VUndefined |}
                (make_id now (messageId b)) None eq_refl) as Hs.
  rewrite (sendCommand_sent env now _ b proc written _ Hp Hw Hs).
  unfold written_to_child. fields. rewrite Hp.
  cbn [mbind option_bind stdin default id]. rewrite Hw.
  cbn [default id plus_newline app join_comma type].
  rewrite QuoteJSONString_make_id. do 2 f_equal.
  change (js "{") with [123]. change (js ":") with [58].
  change (js ",") with [44]. change (js "}") with [125].
  cbn [app]. f_equal. by rewrite <- !app_assoc.
Qed.

(** [getCurrentSelection] and [getCurrentPage] on a running child write
    one record each, with the members [type] and [id] and no [payload]
    member, the id between quotes without any escape. *)
Theorem commands_without_payload_on_the_wire
    (env : SpawnResult) (now : Z) (b : Bridge) :
  writable b ->
  written_to_child (snd (getCurrentSelection env now b))
  = written_to_child b
    ++ [js "{" ++ quoted (js "type") ++ js ":" ++ quoted (js "GET_SELECTION")
        ++ js "," ++ quoted (js "id") ++ js ":"
        ++ quoted (make_id now (messageId b)) ++ js "}" ++ [LF]]
  /\ written_to_child (snd (getCurrentPage env now b))
     = written_to_child b
       ++ [js "{" ++ quoted (js "type") ++ js ":" ++ quoted (js "GET_CURRENT_PAGE")
           ++ js "," ++ quoted (js "id") ++ js ":"
           ++ quoted (make_id now (messageId b)) ++ js "}" ++ [LF]].
Proof.
  intros Hw. unfold getCurrentSelection, getCurrentPage, sendPluginCommand.
  rewrite !record_without_payload by done. split; reflexivity.
Qed.

(** ** Callbacks and promises *)

Lemma sendCommand_new_state env now command b :
  exists state, promises (snd (sendCommand env now command b))
                = promises b ++ [state]
                /\ forall v, state <> Fulfilled v.
Proof.
  destruct b as [pp rc mb mi ps c].
  send_cases pp env; (eexists; split; [reflexivity | done]).
Qed.

Lemma callbacks_sound_sendCommand env now command b :
  callbacks_sound b -> callbacks_sound (snd (sendCommand env now command b)).
Proof.
  intros Hb k p Hk.
  destruct (sendCommand_new_state env now command b) as (state & Hps & Hstate).
  rewrite Hps, length_app. cbn [length].
  destruct (sendCommand_counter env now command b) as [[_ Hrc]|[_ Hrc]];
    rewrite Hrc in *.
  - destruct (Hb k p Hk) as (Hlt & Hnf & Hinj). split_and!.
    + lia.
    + intros v. by rewrite lookup_app_l by lia.
    + done.
  - destruct (decide (make_id now (messageId b) = k)) as [<-|Hne].
    + rewrite lookup_insert_eq in Hk. injection Hk as <-. split_and!.
      * lia.
      * intros v. rewrite lookup_app_r, Nat.sub_diag by lia.
        cbn. intros [= H]. by apply (Hstate v).
      * intros k' Hk'.
        destruct (decide (make_id now (messageId b) = k')) as [|Hne']; [done|].
        rewrite lookup_insert_ne in Hk' by done.
        destruct (Hb k' _ Hk') as (Hlt & _). lia.
    + rewrite lookup_insert_ne in Hk by done.
      destruct (Hb k p Hk) as (Hlt & Hnf & Hinj). split_and!.
      * lia.
      * intros v. by rewrite lookup_app_l by lia.
      * intros k' Hk'.
        destruct (decide (make_id now (messageId b) = k')) as [<-|Hne'].
        -- rewrite lookup_insert_eq in Hk'. injection Hk' as <-. lia.
        -- rewrite lookup_insert_ne in Hk' by done. by apply Hinj.
Qed.

Lemma callbacks_sound_delivered id (q : PromiseId) r b :
  responseCallbacks b !! id = Some q ->
  callbacks_sound b -> callbacks_sound (delivered id q r b).
Proof.
  intros Hq Hb k p. unfold delivered. fields. intros Hk.
  apply lookup_delete_Some in Hk as [Hne Hk].
  destruct (Hb k p Hk) as (Hlt & Hnf & Hinj).
  assert (Hpq : q <> p).
  { intros ->. apply Hne. by apply Hinj. }
  split_and!.
  - by rewrite length_promises_settle.
  - intros v. by rewrite promises_settle_other.
  - intros k' Hk'. apply lookup_delete_Some in Hk' as [_ Hk']. by apply Hinj.
Qed.

Lemma callbacks_sound_logged es b : callbacks_sound b -> callbacks_sound (logged es b).
Proof. intros Hb k p Hk. exact (Hb k p Hk). Qed.

Lemma callbacks_sound_process_line line b :
  callbacks_sound b -> callbacks_sound (snd (process_line line b)).
Proof.
  intros Hb.
  destruct (process_line_cases line b)
    as [H|[[e H]|[[r H]|(r & id & q & Hq & H)]]]; rewrite H; cbn [snd].
  - done.
  - by apply callbacks_sound_logged.
  - by apply callbacks_sound_logged.
  - by apply callbacks_sound_delivered.
Qed.

Lemma callbacks_sound_for_of lines : forall b,
  callbacks_sound b -> callbacks_sound (snd (for_of lines process_line b)).
Proof.
  induction lines as [|l ls IH]; intros b Hb; [done|].
  cbn [for_of]. unfold bind. pose proof (process_line_normal l b) as Hn.
  pose proof (callbacks_sound_process_line l b Hb) as Hl.
  destruct (process_line l b) as [[[]|e] b']; cbn [fst snd] in *; [|discriminate].
  by apply IH.
Qed.

Lemma callbacks_sound_step ev b : callbacks_sound b -> callbacks_sound (step ev b).
Proof.
  intros Hb. destruct ev as [env now command|data|data|code|]; cbn [step].
  - by apply callbacks_sound_sendCommand.
  - unfold on_stdout. rewrite handlePluginOutput_unfold.
    apply callbacks_sound_for_of. intros k p Hk. exact (Hb k p Hk).
  - intros k p Hk. exact (Hb k p Hk).
  - intros k p Hk. exact (Hb k p Hk).
  - rewrite shutdown_unfold. cbn [snd].
    destruct (pluginProcess b); intros k p Hk; exact (Hb k p Hk).
Qed.

(** On a bridge driven from [new PluginBridge()], every callback that is
    still stored belongs to a promise that exists and has not been
    fulfilled, and no promise has its callback stored under two ids: a call
    whose reply reported success leaves no callback behind. *)
Theorem stored_callbacks_are_unanswered
    (b : Bridge) (k : jsstring) (p : PromiseId) :
  reachable b -> responseCallbacks b !! k = Some p ->
  (p < length (promises b))%nat
  /\ (forall v, promises b !! p <> Some (Fulfilled v))
  /\ (forall k', responseCallbacks b !! k' = Some p -> k' = k).
Proof.
  intros [evs ->]. revert k p. change (callbacks_sound (run evs new_bridge)).
  unfold run. rewrite <- fold_left_rev_right.
  induction (rev evs) as [|ev evs' IH]; cbn [fold_right].
  - intros k p Hk. done.
  - by apply callbacks_sound_step.
Qed.

(** ** Bookkeeping *)

Lemma sendCommand_registers env now command b proc :
  child_at_send env b = Some proc ->
  responseCallbacks (snd (sendCommand env now command b))
  = <[make_id now (messageId b) := length (promises b)]> (responseCallbacks b).
Proof.
  destruct b as [pp rc mb mi ps c]. unfold child_at_send. fields. intros H.
  send_cases pp env; try discriminate; reflexivity.
Qed.


Lemma join_comma_snoc parts part :
  parts <> [] -> join_comma (parts ++ [part]) = join_comma parts ++ 44 :: part.
Proof.
  induction parts as [|x xs IH]; [done|]. intros _.
  destruct xs as [|y ys]; [reflexivity|].
  change (join_comma ((x :: y :: ys) ++ [part]))
    with (x ++ 44 :: join_comma ((y :: ys) ++ [part])).
  rewrite IH by done. change (join_comma (x :: y :: ys))
    with (x ++ 44 :: join_comma (y :: ys)).
  by rewrite <- app_assoc.
Qed.

(** The id on the wire is the id in the map: a call on a running child
    whose payload serializes writes a record that ends with the member
    [id], holding between quotes exactly the key under which the callback
    of the call's promise is stored. *)
Theorem written_id_is_registered_id
    (env : SpawnResult) (now : Z) (command : PluginCommand) (b : Bridge) :
  writable b -> serializable (payload command) ->
  exists start,
    written_to_child (snd (sendCommand env now command b))
    = written_to_child b
      ++ [start ++ quoted (js "id") ++ js ":"
          ++ quoted (make_id now (messageId b)) ++ js "}" ++ [LF]]
    /\ responseCallbacks (snd (sendCommand env now command b))
         !! make_id now (messageId b)
       = Some (length (promises b)).
Proof.
  intros (proc & written & Hp & Hw) [text Hs].
  pose proof (stringify_message command (make_id now (messageId b)) text Hs) as Hm.
  rewrite (sendCommand_sent env now command b proc written _ Hp Hw Hm).
  fields.
  set (members := (QuoteJSONString (js "type")
                     ++ 58 :: QuoteJSONString (type_name (type command)))
                  :: match text with
                     | Some t => [QuoteJSONString (js "payload") ++ 58 :: t]
                     | None => []
                     end).
  exists (123 :: join_comma members ++ [44]). split; [|apply lookup_insert_eq].
  unfold written_to_child. fields. rewrite Hp.
  cbn [mbind option_bind stdin default id]. rewrite Hw.
  cbn [default id plus_newline]. do 2 f_equal.
  match goal with
  | |- context [join_comma (?m :: ?l ++ [?y])] =>
      change (join_comma (m :: l ++ [y])) with (join_comma ((m :: l) ++ [y]))
  end.
  rewrite join_comma_snoc by done. fold members.
  rewrite QuoteJSONString_make_id.
  change (js ":") with [58]. change (js "}") with [125].
  change (QuoteJSONString (js "id")) with (quoted (js "id")).
  cbn [app]. f_equal. rewrite <- !app_assoc. cbn [app]. reflexivity.
Qed.

End PluginBridge.


(** * Concrete runs

    The bridge run with the reader [parse_fragment] and the number
    rendering [toString_integral]. *)







(** C6 at a concrete input: the first call of a bridge whose child comes
    without [stdin]. *)
Lemma failed_send_stays_registered_witness :
  let result := sendCommand toString_integral (Spawned child_without_stdin) 7
                  get_selection new_bridge in
  (child_at_send (Spawned child_without_stdin) new_bridge = Some child_without_stdin
   /\ ((stdin child_without_stdin = None /\ not_initialized = not_initialized)
       \/ (exists written, stdin child_without_stdin = Some written
             /\ JSON_stringify toString_integral
                  (message_of get_selection (make_id 7 (messageId new_bridge)))
                = Throw not_initialized)))
  /\ fst result = Normal 0%nat
  /\ promises (snd result) !! 0%nat = Some (Rejected not_initialized)
  /\ responseCallbacks (snd result) !! js "cmd_7_0" = Some 0%nat
  /\ written_to_child (snd result) = [].
Proof.
  intros result.
  assert (H1 : child_at_send (Spawned child_without_stdin) new_bridge
               = Some child_without_stdin) by reflexivity.
  assert (H2 : (stdin child_without_stdin = None /\ not_initialized = not_initialized)
               \/ (exists written, stdin child_without_stdin = Some written
                     /\ JSON_stringify toString_integral
                          (message_of get_selection (make_id 7 (messageId new_bridge)))
                        = Throw not_initialized))
    by (left; split; reflexivity).
  split; [by split|].
  exact (failed_send_stays_registered toString_integral
           (Spawned child_without_stdin) 7 get_selection new_bridge
           child_without_stdin not_initialized H1 H2).
Defined.

(** C6 fails on the code: the child comes without [stdin], the call is
    rejected and nothing is written, and the id of the call is still a key
    of [responseCallbacks]; so is the id of a call whose payload does not
    serialize. *)
Lemma failed_send_leaves_entry :
  let no_stdin := run parse_fragment toString_integral
                    [Call (Spawned child_without_stdin) 7 get_selection] new_bridge in
  let no_text := run parse_fragment toString_integral
                   [Call (Spawned fresh_child) 7 export_design] new_bridge in
  promises no_stdin = [Rejected not_initialized]
  /\ written_to_child no_stdin = []
  /\ responseCallbacks no_stdin !! js "cmd_7_0" = Some 0%nat
  /\ promises no_text
     = [Rejected (TypeError (js "Do not know how to serialize a BigInt"))]
  /\ written_to_child no_text = []
  /\ responseCallbacks no_text !! js "cmd_7_0" = Some 0%nat.
Proof. vm_compute. repeat split. Qed.





(** * Concrete runs for the further properties *)

Lemma generateId_injective_witness :
  let b := started parse_fragment toString_integral in
  fst (generateId 5 b) = fst (generateId 5 b)
  /\ (5 = 5)%Z /\ messageId b = messageId b.
Proof.
  intros b. split; [reflexivity|].
  exact (generateId_injective 5 5 b b eq_refl).
Defined.

Lemma counter_never_decreases_witness :
  let b := started parse_fragment toString_integral in
  let evs := [Call (Spawned fresh_child) 5 add_element; Shutdown;
              Call (Spawned fresh_child) 6 get_selection] in
  reachable parse_fragment toString_integral b
  /\ (0 <= messageId b <= messageId (run parse_fragment toString_integral evs b))%Z
  /\ (messageId (run parse_fragment toString_integral evs b) <= MAX_EXACT)%Z.
Proof.
  intros b evs.
  assert (Hr : reachable parse_fragment toString_integral b)
    by (eexists; reflexivity).
  split; [exact Hr|].
  exact (counter_never_decreases parse_fragment toString_integral evs b Hr).
Defined.

Lemma settled_promises_never_change_witness :
  let b := answered parse_fragment toString_integral in
  let evs := [Stdout (failure_line (js "cmd_1_0") (js "late") ++ [LF]);
              Call (Spawned fresh_child) 5 add_element; Exit (Some 1%Z)] in
  (promises b !! 0%nat = Some (Fulfilled None) /\ Fulfilled None <> Pending)
  /\ promises (run parse_fragment toString_integral evs b) !! 0%nat
     = Some (Fulfilled None).
Proof.
  intros b evs.
  assert (H1 : promises b !! 0%nat = Some (Fulfilled None))
    by (vm_compute; reflexivity).
  assert (H2 : Fulfilled None <> Pending) by discriminate.
  split; [by split|].
  exact (settled_promises_never_change parse_fragment toString_integral evs b
           0%nat (Fulfilled None) H1 H2).
Defined.

Lemma sendCommand_initialize_fails_witness :
  (pluginProcess new_bridge = None
   /\ ((CliMissing = CliMissing /\ cli_not_found = cli_not_found)
       \/ (exists pluginPath, CliMissing = PluginDirMissing pluginPath
             /\ cli_not_found = plugin_dir_not_found pluginPath)))
  /\ sendCommand toString_integral CliMissing 5 get_selection new_bridge
     = (Normal 0%nat,
        {| pluginProcess := None;
           responseCallbacks := ∅;
           messageBuffer := [];
           messageId := 0;
           promises := [Rejected cli_not_found];
           console := [LogInitFailed cli_not_found] |}).
Proof.
  assert (H1 : pluginProcess new_bridge = None) by reflexivity.
  assert (H2 : (CliMissing = CliMissing /\ cli_not_found = cli_not_found)
               \/ (exists pluginPath, CliMissing = PluginDirMissing pluginPath
                     /\ cli_not_found = plugin_dir_not_found pluginPath))
    by (left; split; reflexivity).
  split; [by split|].
  exact (sendCommand_initialize_fails toString_integral CliMissing 5
           get_selection new_bridge cli_not_found H1 H2).
Defined.

Lemma incomplete_record_waits_witness :
  let b := started parse_fragment toString_integral in
  let data := take 7 (success_line (js "cmd_1_0")) in
  let rest := drop 7 (success_line (js "cmd_1_0")) in
  (reachable parse_fragment toString_integral b /\ (LF ∉ data) /\ (LF ∉ rest))
  /\ handlePluginOutput parse_fragment data b
     = (Normal tt, set_messageBuffer data b)
  /\ promises (snd (handlePluginOutput parse_fragment (rest ++ [LF])
                      (snd (handlePluginOutput parse_fragment data b)))) !! 0%nat
     = Some (Fulfilled None).
Proof.
  intros b data rest.
  assert (H1 : reachable parse_fragment toString_integral b)
    by (eexists; reflexivity).
  assert (H2 : LF ∉ data) by evaluate.
  assert (H3 : LF ∉ rest) by evaluate.
  destruct (incomplete_record_waits parse_fragment toString_integral data rest b
              H1 H2 H3) as [Ha Hb].
  split; [by repeat split|]. split; [exact Ha|].
  rewrite Hb. vm_compute. reflexivity.
Defined.

Lemma blank_output_is_ignored_witness :
  let b := started parse_fragment toString_integral in
  let data := [32; 10; 9; 13; 10] in
  blank (messageBuffer b ++ data)
  /\ handlePluginOutput parse_fragment data b = (Normal tt, b).
Proof.
  intros b data.
  assert (H : blank (messageBuffer b ++ data)) by evaluate.
  split; [exact H|].
  exact (blank_output_is_ignored parse_fragment data b H).
Defined.


Lemma reply_without_string_id_is_logged_witness :
  let b := started parse_fragment toString_integral in
  let line := js "true" in
  (trim line <> [] /\ parse_fragment line = Normal (JBool true)
   /\ JBool true <> JNull
   /\ (forall id, Get (JBool true) (js "id") <> Normal (Some (JString id))))
  /\ process_line parse_fragment line b
     = (Normal tt, logged [LogNoCallback (JBool true)] b).
Proof.
  intros b line.
  assert (H1 : trim line <> []) by evaluate.
  assert (H2 : parse_fragment line = Normal (JBool true)) by (vm_compute; reflexivity).
  assert (H3 : JBool true <> JNull) by discriminate.
  assert (H4 : forall id, Get (JBool true) (js "id") <> Normal (Some (JString id)))
    by (intros id; discriminate).
  split; [by repeat split|].
  exact (reply_without_string_id_is_logged parse_fragment line (JBool true) b
           H1 H2 H3 H4).
Defined.

Lemma commands_are_written_in_order_witness :
  let b := started parse_fragment toString_integral in
  let calls := [ (Spawned fresh_child, 5%Z, get_selection);
                 (Spawned fresh_child, 5%Z, add_element) ] in
  (writable b
   /\ Forall (fun call => serializable toString_integral (payload call.2)) calls)
  /\ exists records,
       written_to_child (send_all toString_integral calls b).2
       = written_to_child b ++ records
       /\ Forall2 (fun call record =>
                     exists id body,
                       JSON_stringify toString_integral (message_of call.2 id)
                       = Normal (Some body)
                       /\ record = body ++ [LF])
                  calls records
       /\ console (send_all toString_integral calls b).2 = console b.
Proof.
  intros b calls.
  assert (Hw : writable b) by (vm_compute; eexists _, _; split; reflexivity).
  assert (Hser : Forall (fun call => serializable toString_integral (payload call.2))
                   calls).
  { repeat apply List.Forall_cons; try apply List.Forall_nil;
      eexists; vm_compute; reflexivity. }
  split; [by split|].
  exact (commands_are_written_in_order toString_integral calls b Hw Hser).
Defined.

Lemma call_after_closing_restarts_witness :
  let b := started parse_fragment toString_integral in
  let closed := snd (shutdown b) in
  let result := sendCommand toString_integral (Spawned fresh_child) 5 add_element
                  closed in
  ((closed = snd (shutdown b) \/ closed = snd (on_exit None b))
   /\ stdin fresh_child = Some []
   /\ serializable toString_integral (payload add_element))
  /\ fst result = Normal 1%nat
  /\ (exists record, written_to_child (snd result) = [record])
  /\ messageId (snd result) = 2%Z
  /\ responseCallbacks (snd result)
     = <[js "cmd_5_1" := 1%nat]> (responseCallbacks b)
  /\ promises (snd result) = [Pending; Pending].
Proof.
  intros b closed result.
  assert (H1 : closed = snd (shutdown b) \/ closed = snd (on_exit None b))
    by (by left).
  assert (H2 : stdin fresh_child = Some []) by reflexivity.
  assert (H3 : serializable toString_integral (payload add_element))
    by (eexists; vm_compute; reflexivity).
  split; [by repeat split|].
  exact (call_after_closing_restarts toString_integral None b closed 5
           add_element fresh_child H1 H2 H3).
Defined.

Lemma commands_without_payload_on_the_wire_witness :
  let b := started parse_fragment toString_integral in
  writable b
  /\ written_to_child (snd (getCurrentSelection toString_integral
                              (Spawned fresh_child) 5 b))
     = written_to_child b
       ++ [js "{" ++ quoted (js "type") ++ js ":" ++ quoted (js "GET_SELECTION")
           ++ js "," ++ quoted (js "id") ++ js ":" ++ quoted (js "cmd_5_1")
           ++ js "}" ++ [LF]].
Proof.
  intros b.
  assert (Hw : writable b) by (vm_compute; eexists _, _; split; reflexivity).
  split; [exact Hw|].
  exact (proj1 (commands_without_payload_on_the_wire toString_integral
                  (Spawned fresh_child) 5 b Hw)).
Defined.

Lemma stored_callbacks_are_unanswered_witness :
  let b := started parse_fragment toString_integral in
  (reachable parse_fragment toString_integral b
   /\ responseCallbacks b !! js "cmd_1_0" = Some 0%nat)
  /\ (0 < length (promises b))%nat
  /\ (forall v, promises b !! 0%nat <> Some (Fulfilled v))
  /\ (forall k', responseCallbacks b !! k' = Some 0%nat -> k' = js "cmd_1_0").
Proof.
  intros b.
  assert (H1 : reachable parse_fragment toString_integral b)
    by (eexists; reflexivity).
  assert (H2 : responseCallbacks b !! js "cmd_1_0" = Some 0%nat)
    by (vm_compute; reflexivity).
  split; [by split|].
  exact (stored_callbacks_are_unanswered parse_fragment toString_integral b
           (js "cmd_1_0") 0%nat H1 H2).
Defined.


Lemma written_id_is_registered_id_witness :
  let b := started parse_fragment toString_integral in
  (writable b /\ serializable toString_integral (payload add_element))
  /\ exists start,
       written_to_child (snd (sendCommand toString_integral (Spawned fresh_child) 5
                                add_element b))
       = written_to_child b
         ++ [start ++ quoted (js "id") ++ js ":" ++ quoted (js "cmd_5_1")
             ++ js "}" ++ [LF]]
       /\ responseCallbacks (snd (sendCommand toString_integral
                                    (Spawned fresh_child) 5 add_element b))
            !! js "cmd_5_1"
          = Some 1%nat.
Proof.
  intros b.
  assert (Hw : writable b) by (vm_compute; eexists _, _; split; reflexivity).
  assert (Hs : serializable toString_integral (payload add_element))
    by (eexists; vm_compute; reflexivity).
  split; [by split|].
  exact (written_id_is_registered_id toString_integral (Spawned fresh_child) 5
           add_element b Hw Hs).
Defined.

